(** * Observational memory and interaction-chunk evaluation

    A shallow embedding of the chunker and evaluator of
    [ipa/ipa_evaluator.py] and of the observer, reflector and controller of
    [observational_memory/], followed by the properties the specification
    states about them.

    Conventions.  Python [int] is [Z]; Python [float] is idealised as the
    exact rational [Q] (every float operation of the source is one of [+],
    [*], [/] on values that the rationals represent exactly, so orderings
    and identities proved here are those of the formulas before rounding);
    [str] is [string], read as a sequence of ASCII characters; a message
    [dict] is a record whose fields are optional, as the source reads them
    with [dict.get]; an insertion-ordered [dict] whose order matters is an
    association list; a [dict] or [set] whose order does not matter is a
    [gmap] or a [gset]. *)

From Stdlib Require Import ZArith QArith List String Ascii Lia Lqa Bool DecimalString.
From stdpp Require Import base gmap sets list strings sorting.

Open Scope string_scope.
Open Scope list_scope.
Open Scope Z_scope.

(** ** Outcomes of fallible code *)

Inductive error : Type :=
  | ZeroDivisionError
  | NameError
  | OutOfFuel.

Inductive result (A : Type) : Type :=
  | Ok (a : A)
  | Err (e : error).

Arguments Ok {A} a.
Arguments Err {A} e.

Definition bind {A B : Type} (r : result A) (k : A -> result B) : result B :=
  match r with
  | Ok a => k a
  | Err e => Err e
  end.

Notation "'let*' x ':=' r 'in' k" := (bind r (fun x => k))
  (at level 10, x name, r at level 100, k at level 200).

(** ** Python built-ins used by the source *)

Module Py.

(** [str(n)] for a non-negative integer. *)
Definition str_of_nat (n : nat) : string :=
  NilZero.string_of_uint (Nat.to_uint n).

(** A slice bound as Python normalises it against a length. *)
Definition clamp (len k : Z) : Z :=
  if k <? 0 then Z.max (k + len) 0 else Z.min k len.

(** [l[a:b]]. *)
Definition slice {A : Type} (l : list A) (a b : Z) : list A :=
  let n := Z.of_nat (length l) in
  let a' := clamp n a in
  let b' := clamp n b in
  take (Z.to_nat (b' - a')) (drop (Z.to_nat a') l).

(** [range(a, b)]. *)
Definition range (a b : Z) : list Z :=
  map (fun k : nat => a + Z.of_nat k) (seq 0 (Z.to_nat (b - a))).

(** [c.lower()] on one ASCII character. *)
Definition lower_ascii (c : ascii) : ascii :=
  let n := nat_of_ascii c in
  if ((65 <=? n) && (n <=? 90))%nat then ascii_of_nat (n + 32) else c.

(** [s.lower()]. *)
Fixpoint lower (s : string) : string :=
  match s with
  | EmptyString => EmptyString
  | String c s' => String (lower_ascii c) (lower s')
  end.

(** [p in s] on strings: [p] occurs in [s] as a contiguous substring. *)
Fixpoint contains (p s : string) : bool :=
  String.prefix p s ||
  match s with
  | EmptyString => false
  | String _ s' => contains p s'
  end.

(** [c.isspace()] on one ASCII character. *)
Definition is_space (c : ascii) : bool :=
  let n := nat_of_ascii c in
  (((9 <=? n) && (n <=? 13)) || ((28 <=? n) && (n <=? 32)))%nat.

(** [s.split()]: the maximal runs of non-space characters; [w] is the
    word being read. *)
Fixpoint split_from (w s : string) : list string :=
  match s with
  | EmptyString => match w with EmptyString => [] | _ => [w] end
  | String c s' =>
      if is_space c
      then match w with
           | EmptyString => split_from EmptyString s'
           | _ => w :: split_from EmptyString s'
           end
      else split_from (w +:+ String c EmptyString) s'
  end.

Definition split (s : string) : list string := split_from EmptyString s.

(** [sep.join(l)]. *)
Definition join (sep : string) (l : list string) : string :=
  String.concat sep l.

(** [max(d, key=d.get)] over the keys of a non-empty insertion-ordered
    dict, given as its items: the first key whose value is maximal.
    [best] is the item held so far. *)
Fixpoint max_item {K : Type} (best : K * nat) (items : list (K * nat)) : K :=
  match items with
  | [] => fst best
  | it :: items' =>
      if (snd best <? snd it)%nat then max_item it items'
      else max_item best items'
  end.

(** [a or b] on optional text: [a] when it is truthy, else [b]. *)
Definition or_text (a b : option string) : option string :=
  match a with
  | Some EmptyString | None => b
  | Some _ => a
  end.

End Py.

(** ** Dates and times *)

Record datetime : Type := mkDatetime {
  year : nat;
  month : nat;
  day : nat;
  hour : nat;
  minute : nat;
  second : nat
}.

(** [n] in decimal, left-padded with zeros to [width] digits. *)
Definition zero_pad (width n : nat) : string :=
  let s := Py.str_of_nat n in
  String.concat "" (repeat "0" (width - String.length s)) +:+ s.

(** [t.date().isoformat()]. *)
Definition date_isoformat (t : datetime) : string :=
  zero_pad 4 (year t) +:+ "-" +:+ zero_pad 2 (month t) +:+ "-" +:+ zero_pad 2 (day t).

(** [t.strftime("%H:%M")]. *)
Definition strftime_HM (t : datetime) : string :=
  zero_pad 2 (hour t) +:+ ":" +:+ zero_pad 2 (minute t).

(** ** Messages *)

(** A message dict; a field is [None] when the key is absent. *)
Record message : Type := mkMessage {
  msg_role : option string;
  msg_content : option string;
  msg_timestamp : option datetime
}.

(** [str(m.get("content", ""))]. *)
Definition content_text (m : message) : string :=
  default "" (msg_content m).

(** * ipa/ipa_evaluator.py *)

Record InteractionChunk : Type := mkInteractionChunk {
  chunk_id : string;
  start_idx : Z;
  end_idx : Z;
  messages : list message;
  semantic_type : string;
  importance : Q;
  chunk_timestamp : datetime
}.

Record ChunkEvaluationResult : Type := mkChunkEvaluationResult {
  result_chunk_id : string;
  credit_assigned : Q;
  reconstruction_quality : Q;
  temporal_relevance : Q;
  overall_score : Q
}.

(** The chunker object: its two sizes and its pattern dict, in insertion
    order. *)
Record InteractionChunker : Type := mkInteractionChunker {
  min_chunk_size : Z;
  max_chunk_size : Z;
  semantic_patterns : list (string * list string)
}.

(** The patterns [__init__] installs when none are given. *)
Definition default_semantic_patterns : list (string * list string) :=
  [ ("question", ["?"; "how"; "what"; "why"; "can you"; "help"]);
    ("explanation", ["because"; "since"; "the reason"; "as a result"]);
    ("correction", ["no"; "actually"; "that's wrong"; "not exactly"]);
    ("task", ["do this"; "create"; "write"; "build"; "implement"]) ].

(** [InteractionChunker()] with all defaults. *)
Definition default_chunker : InteractionChunker :=
  mkInteractionChunker 3 10 default_semantic_patterns.

(** [sum(1 for pattern in patterns if pattern in text)]. *)
Definition pattern_score (text : string) (patterns : list string) : nat :=
  length (List.filter (fun pattern => Py.contains pattern text) patterns).

(** The [type_scores] dict, as its items in insertion order. *)
Definition type_scores (self : InteractionChunker) (text : string)
  : list (string * nat) :=
  map (fun kv => (fst kv, pattern_score text (snd kv))) (semantic_patterns self).

(** The text [_classify_semantic_type] scores. *)
Definition chunk_text_lower (msgs : list message) : string :=
  Py.lower (Py.join " " (map content_text msgs)).

Definition _classify_semantic_type (self : InteractionChunker)
    (msgs : list message) : string :=
  match msgs with
  | [] => "task"
  | _ =>
      match type_scores self (chunk_text_lower msgs) with
      | [] => "task"
      | first :: rest => Py.max_item first rest
      end
  end.

(** [_calculate_importance]; the division raises when [total] is zero. *)
Definition _calculate_importance (idx total : Z) : result Q :=
  if total =? 0 then Err ZeroDivisionError
  else
    let recency := (inject_Z (total - idx) / inject_Z total)%Q in
    Ok ((1 # 2) + recency * (1 # 2))%Q.

Section Chunker.

Variable self : InteractionChunker.
Variable msgs : list message.

Let len : Z := Z.of_nat (length msgs).

(** The look-ahead loop of [_determine_chunk_size] over the remaining
    values of [j], with the current value of [size]. *)
Fixpoint boundary_scan (current_type : string) (start_idx0 : Z)
    (js : list Z) (size : Z) : Z :=
  match js with
  | [] => size
  | j :: js' =>
      let next_type := _classify_semantic_type self (Py.slice msgs j (j + 1)) in
      if String.eqb next_type current_type
      then boundary_scan current_type start_idx0 js' size
      else
        let size' := j - start_idx0 in
        if min_chunk_size self <=? size' then size'
        else boundary_scan current_type start_idx0 js' size'
  end.

Definition _determine_chunk_size (start_idx0 : Z) : Z :=
  let remaining := len - start_idx0 in
  let size := Z.min (max_chunk_size self) (Z.max (min_chunk_size self) remaining) in
  if start_idx0 + size <? len then
    let current_type :=
      _classify_semantic_type self (Py.slice msgs start_idx0 (start_idx0 + 1)) in
    boundary_scan current_type start_idx0
      (Py.range (start_idx0 + 1) (Z.min (start_idx0 + size) len)) size
  else size.

(** The clock: [now k] is what [datetime.now()] returns when chunk [k]
    is built. *)
Variable now : nat -> datetime.
Variable thread_id : string.

(** The [while] loop of [chunk], from index [i] with the chunks built so
    far; every iteration spends one unit of fuel. *)
Fixpoint chunk_loop (fuel : nat) (i : Z) (chunks : list InteractionChunk)
  : result (list InteractionChunk) :=
  if i <? len then
    match fuel with
    | O => Err OutOfFuel
    | S fuel' =>
        let chunk_size := _determine_chunk_size i in
        let chunk_messages := Py.slice msgs i (i + chunk_size) in
        let semantic_type0 := _classify_semantic_type self chunk_messages in
        let* importance0 := _calculate_importance i len in
        let c := mkInteractionChunk
                   (thread_id +:+ "_chunk_" +:+ Py.str_of_nat (length chunks))
                   i (i + chunk_size) chunk_messages semantic_type0
                   importance0 (now (length chunks)) in
        chunk_loop fuel' (i + chunk_size) (chunks ++ [c])
    end
  else Ok chunks.

(** [chunk]: the loop from index 0 with no chunks, with as much fuel as
    there are messages, which is enough whenever every chunk size is
    positive. *)
Definition chunk : result (list InteractionChunk) :=
  chunk_loop (length msgs) 0 [].

End Chunker.

(** * observational_memory/ *)

(** ** Types *)

(** Modelled from the spec: [types.py] is not among the sources.  The three
    fixed priority levels, RED the highest; their values are the emoji the
    observer's comments give for them. *)
Inductive PriorityLevel : Type :=
  | RED
  | YELLOW
  | GREEN.

Definition PriorityLevel_eqb (p q : PriorityLevel) : bool :=
  match p, q with
  | RED, RED | YELLOW, YELLOW | GREEN, GREEN => true
  | _, _ => false
  end.

(** A string given by its UTF-8 bytes. *)
Definition of_bytes (bs : list nat) : string :=
  fold_right (fun b s => String (ascii_of_nat b) s) EmptyString bs.

(** [priority.value]: U+1F534, U+1F7E1, U+1F7E2. *)
Definition priority_value (p : PriorityLevel) : string :=
  match p with
  | RED => of_bytes [240; 159; 148; 180]
  | YELLOW => of_bytes [240; 159; 159; 161]
  | GREEN => of_bytes [240; 159; 159; 162]
  end%nat.

(** Modelled from the spec: [types.py] is not among the sources.  An
    observation has an anchor timestamp, an optional referenced timestamp,
    a priority and a content text; the source constructs it from
    [timestamp], [priority] and [content] only. *)
Record Observation : Type := mkObservation {
  obs_timestamp : datetime;
  obs_referenced : option datetime;
  priority : PriorityLevel;
  obs_content : string
}.

(** [Observation(timestamp=t, priority=p, content=c)]. *)
Definition new_observation (t : datetime) (p : PriorityLevel) (c : string)
  : Observation :=
  mkObservation t None p c.

(** Modelled from the spec: [types.py] is not among the sources.  The
    per-thread record: the observations, an optional current task and an
    optional suggested response. *)
Record ObservationalMemoryRecord : Type := mkObservationalMemoryRecord {
  observations : list Observation;
  current_task : option string;
  suggested_response : option string
}.

(** [ObservationalMemoryRecord(observations=[])]. *)
Definition empty_record : ObservationalMemoryRecord :=
  mkObservationalMemoryRecord [] None None.

(** Modelled from the spec: [types.py] is not among the sources.  The two
    token-equivalent thresholds and the two temperatures. *)
Record ObservationConfig : Type := mkObservationConfig {
  observation_threshold : Z;
  reflection_threshold : Z;
  extraction_temperature : Q;
  condensation_temperature : Q
}.

(** ** observer_agent.py *)

(** [msg.get("role") == "user"]. *)
Definition role_is_user (msg : message) : bool :=
  match msg_role msg with
  | Some r => String.eqb r "user"
  | None => false
  end.

Section Observer.

(** The clock: [now k] is what [datetime.now()] returns while message
    [k] of the call is scanned. *)
Variable now : nat -> datetime.

(** The [for] loop of [_simple_extraction] from message number [k], with
    the observations appended so far. *)
Fixpoint extraction_loop (k : nat) (msgs : list message)
    (acc : list Observation) : list Observation :=
  match msgs with
  | [] => acc
  | msg :: msgs' =>
      if role_is_user msg then
          let content := default "" (msg_content msg) in
          let timestamp := default (now k) (msg_timestamp msg) in
          if Py.contains "kids" (Py.lower content)
             || Py.contains "children" (Py.lower content)
          then extraction_loop (S k) msgs'
                 (acc ++ [new_observation timestamp RED
                            "User mentioned family (children)"])
          else if Py.contains "work" (Py.lower content)
                  || Py.contains "job" (Py.lower content)
          then extraction_loop (S k) msgs'
                 (acc ++ [new_observation timestamp YELLOW
                            "User discussed work situation"])
          else extraction_loop (S k) msgs' acc
      else extraction_loop (S k) msgs' acc
  end.

Definition _simple_extraction (msgs : list message) : list Observation :=
  extraction_loop 0 msgs [].

(** [extract_observations]: the fallback extraction, an empty current
    task and an empty suggested response. *)
Definition extract_observations (msgs : list message)
    (existing_observations : string)
  : list Observation * string * string :=
  (_simple_extraction msgs, "", "").

End Observer.

(** ** reflector_agent.py *)

(** [obs.priority in [PriorityLevel.RED, PriorityLevel.YELLOW]]. *)
Definition is_red_or_yellow (obs : Observation) : bool :=
  PriorityLevel_eqb (priority obs) RED || PriorityLevel_eqb (priority obs) YELLOW.

(** [_simple_condensation].  The module does not import [datetime], so the
    alternative of the conditional expression that reads the clock would
    raise [NameError]. *)
Definition _simple_condensation (obss : list Observation)
  : result (list Observation) :=
  let condensed := List.filter is_red_or_yellow obss in
  match condensed with
  | [] => Ok condensed
  | _ =>
      let* timestamp :=
        match obss with
        | first :: _ => Ok (obs_timestamp first)
        | [] => Err NameError
        end in
      let summary :=
        new_observation timestamp RED
          ("Memory consolidated: " +:+ Py.str_of_nat (length condensed)
           +:+ " key observations preserved") in
      Ok (condensed ++ [summary])
  end.

Definition reflect (obss : list Observation) : result (list Observation) :=
  _simple_condensation obss.

(** ** __init__.py: the controller *)

(** The object [ObservationalMemory] builds; its token counter, observer
    and reflector hold no state of their own. *)
Record ObservationalMemory : Type := mkObservationalMemory {
  config : ObservationConfig
}.

(** A value of the stats dict. *)
Inductive stat_value : Type :=
  | StatInt (n : Z)
  | StatBool (b : bool)
  | StatNone.

(** The line feed. *)
Definition nl : string := String (ascii_of_nat 10) EmptyString.

(** [get_observation_record]: the source has no storage behind it and
    returns [None] for every thread. *)
Definition get_observation_record (self : ObservationalMemory)
    (thread_id : string) : option ObservationalMemoryRecord :=
  None.

(** The [grouped] dict of [_format_observations]. *)
Definition group_by_date (obss : list Observation)
  : gmap string (list Observation) :=
  fold_left
    (fun grouped obs =>
       let date_key := date_isoformat (obs_timestamp obs) in
       <[date_key := default [] (grouped !! date_key) ++ [obs]]> grouped)
    obss ∅.

(** [sorted(grouped.keys())]. *)
Definition sorted_keys (grouped : gmap string (list Observation)) : list string :=
  merge_sort (fun a b => Is_true (String.leb a b)) (map fst (map_to_list grouped)).

(** One line of the rendered context. *)
Definition format_line (obs : Observation) : string :=
  "* " +:+ priority_value (priority obs) +:+ " ("
  +:+ strftime_HM (obs_timestamp obs) +:+ ") " +:+ obs_content obs.

Definition _format_observations (obss : list Observation) : string :=
  match obss with
  | [] => ""
  | _ =>
      let grouped := group_by_date obss in
      let lines :=
        flat_map
          (fun date_key =>
             ("Date: " +:+ date_key)
             :: map format_line (default [] (grouped !! date_key)))
          (sorted_keys grouped) in
      Py.join nl lines
  end.

(** Whether an optional text is truthy. *)
Definition truthy (s : option string) : bool :=
  match s with
  | Some EmptyString | None => false
  | Some _ => true
  end.

Definition get_context (self : ObservationalMemory) (thread_id : string)
  : string :=
  match get_observation_record self thread_id with
  | None => "No observations yet."
  | Some record =>
      let context := _format_observations (observations record) in
      let context :=
        if truthy (suggested_response record)
        then context +:+ nl +:+ nl +:+ "<Suggested Response>" +:+ nl
             +:+ default "" (suggested_response record) +:+ nl
        else context in
      if truthy (current_task record)
      then context +:+ nl +:+ nl +:+ "<Current Task>" +:+ nl
           +:+ default "" (current_task record) +:+ nl
      else context
  end.

Definition get_stats (self : ObservationalMemory) (thread_id : string)
  : gmap string stat_value :=
  match get_observation_record self thread_id with
  | None => {[ "total_observations" := StatInt 0 ]}
  | Some record =>
      <[ "total_observations" := StatInt (Z.of_nat (length (observations record))) ]>
      (<[ "last_observed_at" := StatNone ]>
       {[ "has_current_task" := StatBool (truthy (current_task record)) ]})
  end.

(** [force_reflection].  With a record, the message it builds names an
    undefined variable, after the reflector has run. *)
Definition force_reflection (self : ObservationalMemory) (thread_id : string)
  : result string :=
  match get_observation_record self thread_id with
  | None => Ok "No observations to reflect."
  | Some record =>
      let* reflected := reflect (observations record) in
      Err NameError
  end.

Section Controller.

(** [TokenCounter.count_observations]; [token_counter.py] is not among
    the sources. *)
Variable count_observations : list Observation -> Z.

Variable now : nat -> datetime.

(** [process_messages]: the record it returns, and the controller after
    the call (no attribute of [self] is assigned). *)
Definition process_messages (self : ObservationalMemory) (thread_id : string)
    (msgs : list message) (existing_observations : string)
  : result (ObservationalMemoryRecord * ObservationalMemory) :=
  let record :=
    match get_observation_record self thread_id with
    | None => empty_record
    | Some record => record
    end in
  let existing_obs_text := _format_observations (observations record) in
  let '(new_observations, current_task0, suggested) :=
    extract_observations now msgs existing_obs_text in
  let combined := observations record ++ new_observations in
  let observation_count := count_observations combined in
  let* combined :=
    if reflection_threshold (config self) <? observation_count
    then reflect combined
    else Ok combined in
  Ok (mkObservationalMemoryRecord combined
        (Py.or_text (Some current_task0) (current_task record))
        (Py.or_text (Some suggested) (suggested_response record)),
      self).

End Controller.

(** * ipa/ipa_evaluator.py: the evaluator *)

Record IPAEvaluator : Type := mkIPAEvaluator {
  chunker : InteractionChunker;
  paom : option ObservationalMemory
}.

(** [IPAEvaluator()] with all defaults. *)
Definition default_evaluator : IPAEvaluator :=
  mkIPAEvaluator default_chunker None.

(** [" ".join(str(m.get("content", "")) for m in chunk.messages)]. *)
Definition chunk_text_of (c : InteractionChunk) : string :=
  Py.join " " (map content_text (messages c)).

(** [set(text.lower().split())]. *)
Definition word_set (text : string) : gset string :=
  list_to_set (Py.split (Py.lower text)).

(** The part of [_measure_reconstruction_quality] that follows the
    rendering of the context. *)
Definition reconstruction_against (paom_context : string) (c : InteractionChunk)
  : Q :=
  let chunk_text := chunk_text_of c in
  if Py.contains chunk_text paom_context then 1%Q
  else
    let chunk_words := word_set chunk_text in
    let context_words := word_set paom_context in
    let overlap :=
      (inject_Z (Z.of_nat (size (chunk_words ∩ context_words)))
       / inject_Z (Z.of_nat (Nat.max (size chunk_words) 1)))%Q in
    (overlap * (9 # 10))%Q.

Definition _measure_reconstruction_quality (self : IPAEvaluator)
    (c : InteractionChunk) (thread_id : string) : Q :=
  match paom self with
  | None => ((85 # 100) + importance c * (1 # 10))%Q
  | Some om => reconstruction_against (get_context om thread_id) c
  end.

(** The [type_relevance] table, with its default. *)
Definition _measure_temporal_relevance (c : InteractionChunk) : Q :=
  if String.eqb (semantic_type c) "task" then 1%Q
  else if String.eqb (semantic_type c) "correction" then (9 # 10)%Q
  else if String.eqb (semantic_type c) "explanation" then (7 # 10)%Q
  else if String.eqb (semantic_type c) "question" then (5 # 10)%Q
  else (7 # 10)%Q.

Definition _evaluate_chunk (self : IPAEvaluator) (c : InteractionChunk)
    (thread_id : string) : ChunkEvaluationResult :=
  let reconstruction_quality0 := _measure_reconstruction_quality self c thread_id in
  let temporal_relevance0 := _measure_temporal_relevance c in
  let credit_assigned0 := (importance c * reconstruction_quality0)%Q in
  let overall_score0 :=
    (credit_assigned0 * (5 # 10) + temporal_relevance0 * (3 # 10)
     + reconstruction_quality0 * (2 # 10))%Q in
  mkChunkEvaluationResult (chunk_id c) credit_assigned0 reconstruction_quality0
    temporal_relevance0 overall_score0.

(** [sum(...)] over floats: the running total starts at 0. *)
Definition py_sum (xs : list Q) : Q := fold_left Qplus xs 0%Q.

Definition _calculate_overall_score (chunk_results : list ChunkEvaluationResult)
    (chunks : list InteractionChunk) : Q :=
  match chunk_results with
  | [] => 0%Q
  | _ =>
      let total_credit := py_sum (map credit_assigned chunk_results) in
      let total_importance := py_sum (map importance chunks) in
      if Qlt_le_dec 0 total_importance
      then (total_credit / total_importance * 100)%Q
      else 0%Q
  end.

Definition evaluate_thread (self : IPAEvaluator) (now : nat -> datetime)
    (msgs : list message) (thread_id : string)
  : result (list ChunkEvaluationResult * Q) :=
  let* chunks := chunk (chunker self) msgs now thread_id in
  let chunk_results := map (fun c => _evaluate_chunk self c thread_id) chunks in
  let overall_score0 := _calculate_overall_score chunk_results chunks in
  Ok (chunk_results, overall_score0).

(** * Vocabulary of the properties *)

(** ** Chunkings *)

Section ChunkingVocabulary.

Variable self : InteractionChunker.
Variable msgs : list message.
Variable now : nat -> datetime.
Variable thread_id : string.

Let len : Z := Z.of_nat (length msgs).

(** The candidate size [min(max, max(min, remaining))]. *)
Definition candidate_size (start : Z) : Z :=
  Z.min (max_chunk_size self) (Z.max (min_chunk_size self) (len - start)).

(** The importance the loop gives a chunk that starts at [i]. *)
Definition importance_at (i : Z) : Q :=
  ((1 # 2) + inject_Z (len - i) / inject_Z len * (1 # 2))%Q.

(** The chunk the loop builds at index [i] when [k] chunks exist. *)
Definition chunk_at (i : Z) (k : nat) : InteractionChunk :=
  let e := i + _determine_chunk_size self msgs i in
  mkInteractionChunk (thread_id +:+ "_chunk_" +:+ Py.str_of_nat k) i e
    (Py.slice msgs i e) (_classify_semantic_type self (Py.slice msgs i e))
    (importance_at i) (now k).

(** What the loop appends from index [i] when [k] chunks exist: the
    chunks built at the successive indices, until the index leaves the
    sequence. *)
Fixpoint tiling (i : Z) (k : nat) (cs : list InteractionChunk) : Prop :=
  match cs with
  | [] => len <= i
  | c :: cs' =>
      i < len /\ c = chunk_at i k /\ tiling (end_idx c) (S k) cs'
  end.

(** What holds of every chunk of a tiling. *)
Definition well_formed_chunk (c : InteractionChunk) : Prop :=
  0 <= start_idx c < len /\
  1 <= end_idx c - start_idx c <= max_chunk_size self /\
  messages c = Py.slice msgs (start_idx c) (end_idx c) /\
  messages c <> [] /\
  importance c = importance_at (start_idx c).

End ChunkingVocabulary.

(** Successive chunks abut: each starts where the one before it ended. *)
Fixpoint chained (i : Z) (cs : list InteractionChunk) : Prop :=
  match cs with
  | [] => True
  | c :: cs' => start_idx c = i /\ chained (end_idx c) cs'
  end.

(** The end index of the last chunk of a chain that starts at [i]. *)
Fixpoint chain_end (i : Z) (cs : list InteractionChunk) : Z :=
  match cs with
  | [] => i
  | c :: cs' => chain_end (end_idx c) cs'
  end.

(** The chunk ranges tile [[0, len(messages))]: they abut from index 0,
    the last one ends at the length of the sequence, and each is
    non-empty. *)
Definition exact_partition (msgs : list message) (cs : list InteractionChunk)
  : Prop :=
  chained 0 cs /\
  chain_end 0 cs = Z.of_nat (length msgs) /\
  Forall (fun c => start_idx c < end_idx c) cs.

(** Importance does not decrease from an earlier chunk to a later one. *)
Definition importance_nondecreasing (cs : list InteractionChunk) : Prop :=
  forall c1 c2,
    In c1 cs -> In c2 cs -> start_idx c1 <= start_idx c2 ->
    (importance c1 <= importance c2)%Q.

(** Every chunk except possibly the last has a size within the two
    bounds. *)
Fixpoint sizes_within (self : InteractionChunker) (cs : list InteractionChunk)
  : Prop :=
  match cs with
  | [] => True
  | c :: cs' =>
      match cs' with
      | [] => True
      | _ =>
          min_chunk_size self <= end_idx c - start_idx c <= max_chunk_size self /\
          sizes_within self cs'
      end
  end.

(** ** Scores *)

(** The sum of a list of rationals. *)
Definition Qsum (xs : list Q) : Q := fold_right Qplus 0%Q xs.

(** The per-chunk identities of [_evaluate_chunk]. *)
Definition chunk_scored (self : IPAEvaluator) (thread_id : string)
    (c : InteractionChunk) (r : ChunkEvaluationResult) : Prop :=
  result_chunk_id r = chunk_id c /\
  reconstruction_quality r = _measure_reconstruction_quality self c thread_id /\
  temporal_relevance r = _measure_temporal_relevance c /\
  (credit_assigned r == importance c * reconstruction_quality r)%Q /\
  (overall_score r ==
   (5 # 10) * credit_assigned r + (3 # 10) * temporal_relevance r
   + (2 # 10) * reconstruction_quality r)%Q.

(** ** Observations *)

(** The observations of an input that are not GREEN, in input order. *)
Definition red_and_yellow (obss : list Observation) : list Observation :=
  List.filter
    (fun o => match priority o with GREEN => false | _ => true end) obss.

(** What the observer's loop appends for the message scanned as number
    [k]. *)
Definition contribution (now : nat -> datetime) (k : nat) (msg : message)
  : list Observation :=
  extraction_loop now k [msg] [].

(** The family keywords, as the loop tests them. *)
Definition mentions_family (text : string) : bool :=
  Py.contains "kids" (Py.lower text) || Py.contains "children" (Py.lower text).

(** The work keywords, as the loop tests them. *)
Definition mentions_work (text : string) : bool :=
  Py.contains "work" (Py.lower text) || Py.contains "job" (Py.lower text).

(** ** Controller calls *)

(** The reads of a thread without a record, as the specification words
    them: the sentinel context, stats that hold both a zero count and a
    false task flag, and a reflection that does nothing. *)
Definition reads_without_record (self : ObservationalMemory)
    (thread_id : string) : Prop :=
  get_context self thread_id = "No observations yet." /\
  get_stats self thread_id !! "total_observations" = Some (StatInt 0) /\
  get_stats self thread_id !! "has_current_task" = Some (StatBool false) /\
  force_reflection self thread_id = Ok "No observations to reflect.".

(** A sequence of [process_messages] calls on one controller, each given
    as its thread id and its messages; the controller after the last. *)
Fixpoint process_all (count_observations : list Observation -> Z)
    (now : nat -> datetime) (self : ObservationalMemory)
    (calls : list (string * list message)) : result ObservationalMemory :=
  match calls with
  | [] => Ok self
  | call :: calls' =>
      let* r := process_messages count_observations now self
                  (fst call) (snd call) "" in
      process_all count_observations now (snd r) calls'
  end.

(** ** Sample inputs *)

Definition sample_time : datetime := mkDatetime 2026 2 14 9 30 0.

Definition sample_clock : nat -> datetime := fun _ => sample_time.

(** A user message with the given content, sent at the sample time. *)
Definition user_says (text : string) : message :=
  mkMessage (Some "user") (Some text) (Some sample_time).

Definition sample_config : ObservationConfig :=
  mkObservationConfig 30000 40000 (3 # 10) 0.

Definition sample_memory : ObservationalMemory :=
  mkObservationalMemory sample_config.

(** ** Further vocabulary *)

(** The classification of message [j] taken alone, as the look-ahead of
    [_determine_chunk_size] computes it. *)
Definition single_type (self : InteractionChunker) (msgs : list message)
    (j : Z) : string :=
  _classify_semantic_type self (Py.slice msgs j (j + 1)).

(** A message with its content lower-cased. *)
Definition lower_content (m : message) : message :=
  mkMessage (msg_role m) (option_map Py.lower (msg_content m)) (msg_timestamp m).

(** The date under which an observation is rendered. *)
Definition date_key_of (obs : Observation) : string :=
  date_isoformat (obs_timestamp obs).

(** One step of the grouping loop of [_format_observations]. *)
Definition group_step (grouped : gmap string (list Observation))
    (obs : Observation) : gmap string (list Observation) :=
  <[date_key_of obs := default [] (grouped !! date_key_of obs) ++ [obs]]> grouped.

(** The observations of a list that fall on a date, in list order. *)
Definition on_date (date_key : string) (obss : list Observation)
  : list Observation :=
  List.filter (fun obs => String.eqb (date_key_of obs) date_key) obss.

(** The lines rendered for one date: its heading, then its observations. *)
Definition date_block (obss : list Observation) (date_key : string)
  : list string :=
  ("Date: " +:+ date_key) :: map format_line (on_date date_key obss).

(** The two observations the observer's fallback can build at a time. *)
Definition family_observation (t : datetime) : Observation :=
  mkObservation t None RED "User mentioned family (children)".

Definition work_observation (t : datetime) : Observation :=
  mkObservation t None YELLOW "User discussed work situation".

(** The text of the reflector's summary for [n] kept observations. *)
Definition summary_text (n : nat) : string :=
  "Memory consolidated: " +:+ Py.str_of_nat n +:+ " key observations preserved".

(** * Properties *)

(** ** Python built-ins *)

Lemma range_spec (a b j : Z) : In j (Py.range a b) <-> a <= j < b.
Proof.
  unfold Py.range. rewrite in_map_iff. split.
  - intros (k & <- & Hk). apply in_seq in Hk. lia.
  - intros Hj. exists (Z.to_nat (j - a)). split; [lia|].
    apply in_seq. lia.
Qed.

Lemma slice_inside {A : Type} (l : list A) (a b : Z) :
  0 <= a <= b ->
  Py.slice l a b =
  take (Z.to_nat (Z.min b (Z.of_nat (length l)) - Z.min a (Z.of_nat (length l))))
       (drop (Z.to_nat a) l).
Proof.
  intros Hab. unfold Py.slice, Py.clamp.
  destruct (Z.ltb_spec a 0); [lia|]. destruct (Z.ltb_spec b 0); [lia|].
  destruct (Z.le_gt_cases a (Z.of_nat (length l))) as [Hle|Hgt].
  - rewrite (Z.min_l a) by lia. reflexivity.
  - rewrite !(drop_ge l) by lia. rewrite !take_nil. reflexivity.
Qed.

(** A slice followed by the rest of the list is the list from the slice's
    start. *)
Lemma slice_app_drop {A : Type} (l : list A) (a b : Z) :
  0 <= a <= b ->
  Py.slice l a b ++ drop (Z.to_nat b) l = drop (Z.to_nat a) l.
Proof.
  intros Hab. rewrite slice_inside by assumption.
  destruct (Z.le_gt_cases b (Z.of_nat (length l))) as [Hle|Hgt].
  - rewrite !Z.min_l by lia.
    replace (Z.to_nat b) with (Z.to_nat a + Z.to_nat (b - a))%nat by lia.
    rewrite <- drop_drop. apply take_drop.
  - rewrite (drop_ge l (Z.to_nat b)) by lia. rewrite app_nil_r.
    apply take_ge. rewrite length_drop. lia.
Qed.

Lemma slice_length {A : Type} (l : list A) (a b : Z) :
  0 <= a <= b ->
  Z.of_nat (length (Py.slice l a b)) =
  Z.min b (Z.of_nat (length l)) - Z.min a (Z.of_nat (length l)).
Proof.
  intros Hab. rewrite slice_inside by assumption.
  rewrite length_take, length_drop. lia.
Qed.

(** ** The chunker *)

Section ChunkerFacts.

Variable self : InteractionChunker.
Variable msgs : list message.
Variable now : nat -> datetime.
Variable thread_id : string.

Let len : Z := Z.of_nat (length msgs).

(** The look-ahead returns the size it was given or the offset of one of
    the indices it visited. *)
Lemma boundary_scan_cases (current_type : string) (start : Z) (js : list Z)
    (size : Z) :
  boundary_scan self msgs current_type start js size = size \/
  exists j, In j js /\ boundary_scan self msgs current_type start js size = j - start.
Proof.
  revert size. induction js as [|j js IH]; intros size; simpl.
  - now left.
  - destruct (String.eqb _ current_type).
    + destruct (IH size) as [->|(j' & Hj' & ->)]; [now left|].
      right. exists j'. auto.
    + destruct (Z.leb_spec (min_chunk_size self) (j - start)).
      * right. exists j. auto.
      * right. destruct (IH (j - start)) as [->|(j' & Hj' & ->)].
        -- exists j. auto.
        -- exists j'. auto.
Qed.

(** Either the candidate size is kept, or the chunk is cut at an index
    strictly inside the candidate and strictly before the end of the
    sequence. *)
Lemma determine_chunk_size_cases (start : Z) :
  _determine_chunk_size self msgs start = candidate_size self msgs start \/
  (start + candidate_size self msgs start < len /\
   1 <= _determine_chunk_size self msgs start < candidate_size self msgs start).
Proof.
  unfold _determine_chunk_size, candidate_size. fold len.
  set (cand := Z.min (max_chunk_size self)
                 (Z.max (min_chunk_size self) (len - start))).
  destruct (Z.ltb_spec (start + cand) len) as [Hlt|Hge]; [|now left].
  match goal with
  | |- context [boundary_scan ?s ?m ?c ?st ?js ?sz] =>
      destruct (boundary_scan_cases c st js sz) as [->|(j & Hj & ->)]
  end; [now left|].
  right. apply range_spec in Hj. lia.
Qed.

(** With a positive maximum, a chunk that starts inside the sequence has
    between 1 and [max_chunk_size] messages' worth of indices. *)
Lemma determine_chunk_size_bounds (start : Z) :
  1 <= max_chunk_size self -> start < len ->
  1 <= _determine_chunk_size self msgs start <= max_chunk_size self.
Proof.
  intros Hmax Hstart.
  destruct (determine_chunk_size_cases start) as [->|[_ H]];
    unfold candidate_size in *; lia.
Qed.

(** A chunk ends past the sequence only when fewer than [min_chunk_size]
    messages remained, and then at [start + min_chunk_size]. *)
Lemma determine_chunk_size_end (start : Z) :
  1 <= max_chunk_size self -> min_chunk_size self <= max_chunk_size self ->
  start < len ->
  start + _determine_chunk_size self msgs start <= len \/
  (len - start < min_chunk_size self /\
   _determine_chunk_size self msgs start = min_chunk_size self).
Proof.
  intros Hmax Hmin Hstart.
  destruct (determine_chunk_size_cases start) as [E|[H1 H2]]; [|lia].
  rewrite E. unfold candidate_size. lia.
Qed.

(** The loop terminates within [len - i] iterations and appends a
    tiling. *)
Lemma chunk_loop_tiling (fuel : nat) :
  forall (i : Z) (acc : list InteractionChunk),
    1 <= max_chunk_size self -> 0 <= i ->
    (Z.to_nat (len - i) <= fuel)%nat ->
    exists new,
      chunk_loop self msgs now thread_id fuel i acc = Ok (acc ++ new) /\
      tiling self msgs now thread_id i (length acc) new.
Proof.
  induction fuel as [|fuel IH]; intros i acc Hmax Hi Hfuel.
  - exists []. simpl. fold len.
    destruct (Z.ltb_spec i len); [lia|].
    rewrite app_nil_r. auto.
  - cbn [chunk_loop]. fold len.
    destruct (Z.ltb_spec i len) as [Hlt|Hge].
    + pose proof (determine_chunk_size_bounds i Hmax Hlt) as Hsz.
      unfold _calculate_importance.
      destruct (Z.eqb_spec len 0) as [E|_]; [lia|]. cbn [bind].
      match goal with
      | |- context [chunk_loop _ _ _ _ fuel ?j (acc ++ [?c])] =>
          destruct (IH j (acc ++ [c])) as (new & Hrun & Htil);
            [assumption | lia | lia |]
      end.
      rewrite length_app in Htil. cbn [length] in Htil.
      rewrite Nat.add_1_r in Htil.
      eexists (_ :: new). split.
      * rewrite Hrun, <- app_assoc. reflexivity.
      * cbn [tiling]. repeat split; [assumption | exact Htil].
    + exists []. rewrite app_nil_r. auto.
Qed.

(** [chunk] returns: with a positive maximum size the fuel it is given
    is never exhausted and no division by zero occurs. *)
Lemma chunk_returns :
  1 <= max_chunk_size self ->
  exists chunks,
    chunk self msgs now thread_id = Ok chunks /\
    tiling self msgs now thread_id 0 0 chunks.
Proof.
  intros Hmax. unfold chunk.
  destruct (chunk_loop_tiling (length msgs) 0 [] Hmax) as (new & H1 & H2);
    [lia | subst len; lia |].
  exists new. auto.
Qed.

End ChunkerFacts.

Lemma importance_at_decreasing (msgs : list message) (i j : Z) :
  0 <= i < j -> j <= Z.of_nat (length msgs) ->
  (importance_at msgs j < importance_at msgs i)%Q.
Proof.
  intros Hij Hj. unfold importance_at.
  set (n := Z.of_nat (length msgs)) in *.
  unfold Qlt, Qplus, Qmult, Qdiv, Qinv, inject_Z. simpl.
  destruct n as [|p|p]; try lia. simpl. nia.
Qed.

Lemma importance_at_range (msgs : list message) (i : Z) :
  0 <= i < Z.of_nat (length msgs) ->
  (1 # 2 < importance_at msgs i /\ importance_at msgs i <= 1)%Q.
Proof.
  intros Hi. unfold importance_at.
  set (n := Z.of_nat (length msgs)) in *.
  unfold Qlt, Qle, Qplus, Qmult, Qdiv, Qinv, inject_Z. simpl.
  destruct n as [|p|p]; try lia. simpl. split; nia.
Qed.

Section TilingFacts.

Variable self : InteractionChunker.
Variable msgs : list message.
Variable now : nat -> datetime.
Variable thread_id : string.

Let len : Z := Z.of_nat (length msgs).

Hypothesis max_positive : 1 <= max_chunk_size self.

Lemma chunk_at_well_formed (i : Z) (k : nat) :
  0 <= i < len -> well_formed_chunk self msgs (chunk_at self msgs now thread_id i k).
Proof.
  intros Hi. pose proof (determine_chunk_size_bounds self msgs i max_positive) as Hsz.
  fold len in Hsz. specialize (Hsz ltac:(lia)).
  unfold well_formed_chunk, chunk_at; cbn.
  repeat split; try lia.
  intros E. apply (f_equal (fun l => Z.of_nat (length l))) in E.
  rewrite slice_length in E by lia. fold len in E. simpl in E. lia.
Qed.

Lemma tiling_well_formed (cs : list InteractionChunk) :
  forall (i : Z) (k : nat),
    0 <= i -> tiling self msgs now thread_id i k cs ->
    Forall (well_formed_chunk self msgs) cs.
Proof.
  induction cs as [|c cs IH]; intros i k Hi Ht; [constructor|].
  destruct Ht as (Hlt & -> & Ht). constructor.
  - apply chunk_at_well_formed. fold len in Hlt. lia.
  - eapply IH; [|exact Ht].
    pose proof (determine_chunk_size_bounds self msgs i max_positive Hlt).
    cbn. lia.
Qed.

Lemma tiling_chained (cs : list InteractionChunk) :
  forall (i : Z) (k : nat),
    tiling self msgs now thread_id i k cs -> chained i cs.
Proof.
  induction cs as [|c cs IH]; intros i k Ht; [exact I|].
  destruct Ht as (Hlt & -> & Ht). split; [reflexivity|].
  eapply IH. exact Ht.
Qed.

Lemma tiling_chain_end (cs : list InteractionChunk) :
  forall (i : Z) (k : nat),
    tiling self msgs now thread_id i k cs -> len <= chain_end i cs.
Proof.
  induction cs as [|c cs IH]; intros i k Ht; [exact Ht|].
  destruct Ht as (Hlt & -> & Ht). cbn [chain_end]. eapply IH. exact Ht.
Qed.

(** The message subsets of a tiling, in order, are the messages from its
    start on. *)
Lemma tiling_messages (cs : list InteractionChunk) :
  forall (i : Z) (k : nat),
    0 <= i -> tiling self msgs now thread_id i k cs ->
    concat (map messages cs) = drop (Z.to_nat i) msgs.
Proof.
  induction cs as [|c cs IH]; intros i k Hi Ht.
  - simpl in *. fold len in Ht. symmetry. apply drop_ge. lia.
  - destruct Ht as (Hlt & -> & Ht). cbn [map concat].
    pose proof (determine_chunk_size_bounds self msgs i max_positive Hlt) as Hsz.
    rewrite (fun H => IH _ _ H Ht) by (cbn; lia). cbn.
    apply slice_app_drop. lia.
Qed.

End TilingFacts.

(** The chunker returns, and what it returns: the chunks abut from index
    0, reach the end of the sequence, are non-empty, carry the slice of
    their index range, and together hold the messages in order. *)
Lemma chunk_structure (self : InteractionChunker) (msgs : list message)
    (now : nat -> datetime) (thread_id : string) :
  1 <= max_chunk_size self ->
  exists chunks,
    chunk self msgs now thread_id = Ok chunks /\
    chained 0 chunks /\
    Z.of_nat (length msgs) <= chain_end 0 chunks /\
    Forall (well_formed_chunk self msgs) chunks /\
    concat (map messages chunks) = msgs.
Proof.
  intros Hmax.
  destruct (chunk_returns self msgs now thread_id Hmax) as (chunks & Hrun & Ht).
  exists chunks. split; [exact Hrun|]. split; [|split; [|split]].
  - eapply tiling_chained; eassumption.
  - eapply tiling_chain_end; eassumption.
  - apply (tiling_well_formed self msgs now thread_id Hmax chunks 0 0); [lia | assumption].
  - rewrite (tiling_messages self msgs now thread_id Hmax chunks 0 0); [reflexivity | lia | assumption].
Qed.

(** ** Chunk partition *)

(** The conversation of [example_ipa_evaluation]: eight alternating
    messages and the default sizes give one chunk of size 8. *)
Example chunk_of_example_conversation :
  let says := fun r text => mkMessage (Some r) (Some text) (Some sample_time) in
  let msgs :=
    [ says "user" "Can you help me with Python?";
      says "assistant" "Sure, what do you need?";
      says "user" "Write a function to sort a list";
      says "assistant" "Here's a sorting function...";
      says "user" "Great! Can you explain how it works?";
      says "assistant" "The algorithm works by...";
      says "user" "Actually, I think it should be different";
      says "assistant" "You're right, here's the corrected version" ] in
  exists c,
    chunk default_chunker msgs sample_clock "example-thread" = Ok [c] /\
    chunk_id c = "example-thread_chunk_0" /\
    start_idx c = 0 /\ end_idx c = 8 /\ messages c = msgs /\
    semantic_type c = "question".
Proof.
  cbv zeta. eexists. split; [vm_compute; reflexivity|]. repeat split.
Qed.

(** C1 (fails on the code).  The chunk ranges are claimed to tile
    [[0, len(messages))] exactly, the last chunk ending at [len(messages)].
    With the default sizes (3 and 10), two messages yield one chunk whose
    index range is [[0, 3)] although it holds the two messages only: the
    candidate size [min(max, max(min, remaining))] is never cut down to
    what remains, so the ranges do not tile [[0, 2)]. *)
Theorem chunk_last_end_past_length :
  let msgs := [user_says "hello"; user_says "good morning"] in
  exists c,
    chunk default_chunker msgs sample_clock "t" = Ok [c] /\
    start_idx c = 0 /\ end_idx c = 3 /\
    Z.of_nat (length msgs) = 2 /\
    messages c = msgs /\
    ~ exact_partition msgs [c].
Proof.
  cbv zeta. eexists. split; [vm_compute; reflexivity|].
  repeat split.
  intros (_ & Hend & _). vm_compute in Hend. discriminate Hend.
Qed.

(** X1.  The parts of the partition property that hold for every sequence:
    the chunk returns, ranges abut from 0 and cover the sequence, every
    chunk is non-empty, and the last range ends at the length of the
    sequence or, when fewer than [min_chunk_size] messages remained at
    its start, at that start plus [min_chunk_size]. *)
Lemma chunk_covering (self : InteractionChunker) (msgs : list message)
    (now : nat -> datetime) (thread_id : string) :
  1 <= min_chunk_size self <= max_chunk_size self ->
  exists chunks,
    chunk self msgs now thread_id = Ok chunks /\
    chained 0 chunks /\
    Forall (fun c => start_idx c < end_idx c /\ messages c <> []) chunks /\
    concat (map messages chunks) = msgs /\
    Z.of_nat (length msgs) <= chain_end 0 chunks
      < Z.of_nat (length msgs) + min_chunk_size self /\
    (msgs = [] -> chunks = []).
Proof.
  intros [Hmin Hmax].
  destruct (chunk_returns self msgs now thread_id) as (chunks & Hrun & Ht); [lia|].
  exists chunks. split; [exact Hrun|].
  split; [eapply tiling_chained; eassumption|].
  split.
  { eapply Forall_impl;
      [apply (tiling_well_formed self msgs now thread_id ltac:(lia) chunks 0 0);
       [lia | assumption]|].
    intros c (H1 & H2 & H3 & H4 & H5). split; [lia | assumption]. }
  split.
  { rewrite (tiling_messages self msgs now thread_id ltac:(lia) chunks 0 0);
      [reflexivity | lia | assumption]. }
  split.
  { split; [eapply tiling_chain_end; eassumption|].
    assert (Hgen : forall cs i k,
               0 <= i < Z.of_nat (length msgs) + min_chunk_size self ->
               tiling self msgs now thread_id i k cs ->
               chain_end i cs < Z.of_nat (length msgs) + min_chunk_size self).
    { induction cs as [|c cs IH]; intros i k Hi Hc; [simpl; lia|].
      destruct Hc as (Hlt & -> & Hc). cbn [chain_end].
      apply (IH _ (S k)); [|exact Hc]. cbn.
      pose proof (determine_chunk_size_bounds self msgs i ltac:(lia) Hlt).
      pose proof (determine_chunk_size_end self msgs i ltac:(lia) Hmax Hlt).
      lia. }
    apply (Hgen chunks 0 0%nat); [lia | assumption]. }
  intros ->. destruct chunks as [|c cs]; [reflexivity|].
  destruct Ht as (Hlt & _). simpl in Hlt. lia.
Qed.

(** ** Importance and recency *)

(** X2.  What the code does instead, for every sequence: of two chunks of
    one chunking, the later one has strictly smaller importance; the first
    chunk has importance 1 and every chunk has importance above 1/2. *)
Lemma chunk_importance_decreasing (self : InteractionChunker)
    (msgs : list message) (now : nat -> datetime) (thread_id : string)
    (chunks : list InteractionChunk) :
  1 <= max_chunk_size self ->
  chunk self msgs now thread_id = Ok chunks ->
  forall c1 c2,
    In c1 chunks -> In c2 chunks -> start_idx c1 < start_idx c2 ->
    (importance c2 < importance c1 /\ 1 # 2 < importance c2 /\ importance c1 <= 1)%Q.
Proof.
  intros Hmax Hrun c1 c2 H1 H2 Hlt.
  destruct (chunk_structure self msgs now thread_id Hmax)
    as (chunks' & Hrun' & _ & _ & Hwf & _).
  rewrite Hrun in Hrun'. injection Hrun' as <-.
  rewrite List.Forall_forall in Hwf.
  destruct (Hwf c1 H1) as (Hs1 & _ & _ & _ & E1).
  destruct (Hwf c2 H2) as (Hs2 & _ & _ & _ & E2).
  rewrite E1, E2. split; [|split].
  - apply importance_at_decreasing; lia.
  - apply importance_at_range; lia.
  - apply importance_at_range; lia.
Qed.

(** C2 (fails on the code).  Importance is claimed to be non-decreasing
    with recency, the latest chunk near 1.0 and the earliest near 0.5.
    The code computes [0.5 + 0.5 * (total - idx) / total], which decreases
    as the start index grows, against its own comment "more recent = more
    important": eleven messages of one kind give a first chunk at index 0
    with importance 1 and a second, later chunk at index 10 with
    importance 6/11. *)
Theorem chunk_importance_decreases_with_recency :
  let msgs := repeat (user_says "write") 11 in
  exists c1 c2,
    chunk default_chunker msgs sample_clock "t" = Ok [c1; c2] /\
    start_idx c1 = 0 /\ start_idx c2 = 10 /\
    (importance c1 == 1)%Q /\ (importance c2 == 6 # 11)%Q /\
    ~ importance_nondecreasing [c1; c2].
Proof.
  cbv zeta. eexists. eexists. split; [vm_compute; reflexivity|].
  repeat split.
  intros H.
  match type of H with
  | importance_nondecreasing [?a; ?b] =>
      specialize (H a b (or_introl eq_refl) (or_intror (or_introl eq_refl)))
  end.
  cbn in H. specialize (H ltac:(lia)).
  revert H. apply Qlt_not_le. reflexivity.
Qed.

(** ** Chunk sizes *)

(** C3 (fails on the code).  Every chunk but the last is claimed to have
    at least [min_chunk_size] messages, boundary snapping cutting a chunk
    only where that is kept.  The look-ahead assigns [size = j - start_idx]
    before it tests [size >= min_chunk_size], and on a failed test it goes
    on with the shortened size: when the only change of type is at offset
    1, the first chunk has size 1.  Twelve messages, the second of another
    type than the others, with the default sizes 3 and 10. *)
Theorem chunk_size_below_minimum :
  let msgs := user_says "write" :: user_says "why" :: repeat (user_says "write") 10 in
  exists c cs,
    chunk default_chunker msgs sample_clock "t" = Ok (c :: cs) /\
    cs <> [] /\
    start_idx c = 0 /\ end_idx c = 1 /\
    _determine_chunk_size default_chunker msgs 0 = 1 /\
    min_chunk_size default_chunker = 3 /\
    ~ sizes_within default_chunker (c :: cs).
Proof.
  cbv zeta. eexists. eexists. split; [vm_compute; reflexivity|].
  split; [discriminate|].
  repeat split.
  cbn. intros [[H _] _]. revert H. vm_compute. intros H. apply H. reflexivity.
Qed.

(** X3.  The upper bound holds for every sequence: no chunk spans more
    than [max_chunk_size] indices, and none is empty. *)
Lemma chunk_size_at_most_maximum (self : InteractionChunker)
    (msgs : list message) (now : nat -> datetime) (thread_id : string)
    (chunks : list InteractionChunk) :
  1 <= max_chunk_size self ->
  chunk self msgs now thread_id = Ok chunks ->
  Forall (fun c => 1 <= end_idx c - start_idx c <= max_chunk_size self) chunks.
Proof.
  intros Hmax Hrun.
  destruct (chunk_structure self msgs now thread_id Hmax)
    as (chunks' & Hrun' & _ & _ & Hwf & _).
  rewrite Hrun in Hrun'. injection Hrun' as <-.
  eapply Forall_impl; [exact Hwf|].
  intros c (_ & H & _). exact H.
Qed.

(** ** Classification *)

(** [max_item] returns the key of the first item whose value is maximal:
    the items before it have smaller values, the items after it have
    values no larger.  [pre] and [post] split the items already seen
    around the best one. *)
Lemma max_item_first_maximum {K : Type} (items : list (K * nat)) :
  forall (pre : list (K * nat)) (best : K * nat) (post : list (K * nat)),
    Forall (fun x => (snd x < snd best)%nat) pre ->
    Forall (fun x => (snd x <= snd best)%nat) post ->
    exists pre' it post',
      pre ++ best :: post ++ items = pre' ++ it :: post' /\
      Py.max_item best items = fst it /\
      Forall (fun x => (snd x < snd it)%nat) pre' /\
      Forall (fun x => (snd x <= snd it)%nat) post'.
Proof.
  induction items as [|it items IH]; intros pre best post Hpre Hpost.
  - exists pre, best, post. rewrite app_nil_r. auto.
  - cbn [Py.max_item]. destruct (Nat.ltb_spec (snd best) (snd it)) as [Hlt|Hge].
    + destruct (IH (pre ++ best :: post) it []) as (pre' & it' & post' & E & R & H1 & H2).
      * apply Forall_app. split.
        -- eapply Forall_impl; [exact Hpre|]. simpl. intros; lia.
        -- constructor; [exact Hlt|].
           eapply Forall_impl; [exact Hpost|]. simpl. intros; lia.
      * constructor.
      * exists pre', it', post'. split; [|auto].
        rewrite <- E. rewrite <- !app_assoc. reflexivity.
    + destruct (IH pre best (post ++ [it])) as (pre' & it' & post' & E & R & H1 & H2).
      * exact Hpre.
      * apply Forall_app. split; [exact Hpost|]. constructor; [exact Hge|constructor].
      * exists pre', it', post'. split; [|auto].
        rewrite <- E. rewrite <- !app_assoc. reflexivity.
Qed.

(** An empty message list is a task. *)
Lemma classify_empty (self : InteractionChunker) :
  _classify_semantic_type self [] = "task".
Proof. reflexivity. Qed.

(** X9.  For a non-empty message list and a non-empty pattern dict, the
    result is the category with the highest match count over the lower-cased
    text, the first such in declaration order. *)
Lemma classify_highest_first (self : InteractionChunker) (msgs : list message) :
  msgs <> [] -> semantic_patterns self <> [] ->
  let score := fun kv : string * list string =>
                 pattern_score (chunk_text_lower msgs) (snd kv) in
  exists pre kv post,
    semantic_patterns self = pre ++ kv :: post /\
    _classify_semantic_type self msgs = fst kv /\
    Forall (fun x => (score x < score kv)%nat) pre /\
    Forall (fun x => (score x <= score kv)%nat) post.
Proof.
  intros Hmsgs Hpat score.
  unfold _classify_semantic_type, type_scores.
  destruct msgs as [|m0 msgs']; [congruence|].
  set (text := chunk_text_lower (m0 :: msgs')) in *.
  destruct (semantic_patterns self) as [|kv0 kvs]; [congruence|].
  cbn [map].
  set (f := fun kv : string * list string => (fst kv, pattern_score text (snd kv))).
  destruct (max_item_first_maximum (map f kvs) [] (f kv0) [])
    as (pre' & it & post' & E & R & H1 & H2); [constructor | constructor |].
  cbn [app] in E. change (f kv0 :: map f kvs) with (map f (kv0 :: kvs)) in E.
  apply map_eq_app in E as (pre & rest & Ekv & Epre & Erest).
  apply map_eq_cons in Erest as (kv & post & -> & Eit & Epost).
  exists pre, kv, post. split; [exact Ekv|]. split.
  - change (Py.max_item (f kv0) (map f kvs) = fst kv).
    rewrite R, <- Eit. reflexivity.
  - subst pre' it post'. rewrite !Forall_map in H1, H2. auto.
Qed.

(** C4 (fails on the code).  The classifier is claimed to return "task"
    when no pattern of any category matches.  For a non-empty message
    list the dict of scores is never empty, so the final [return "task"]
    is not reached: with every score 0 the first category declared wins,
    and the result is "question". *)
Theorem classify_without_match_is_question :
  let msgs := [user_says "xyz"] in
  Forall (fun kv => snd kv = 0%nat)
         (type_scores default_chunker (chunk_text_lower msgs)) /\
  _classify_semantic_type default_chunker msgs = "question" /\
  _classify_semantic_type default_chunker msgs <> "task".
Proof.
  cbv zeta. split; [|split].
  - vm_compute. repeat constructor.
  - vm_compute. reflexivity.
  - vm_compute. discriminate.
Qed.

(** ** Reconstruction quality *)

(** A ratio [a / b * 9/10] of integers with [0 <= a <= b] and [1 <= b]
    lies between 0 and 9/10. *)
Lemma overlap_ratio_range (a b : Z) :
  0 <= a <= b -> 1 <= b ->
  (0 <= inject_Z a / inject_Z b * (9 # 10) /\
   inject_Z a / inject_Z b * (9 # 10) <= 9 # 10)%Q.
Proof.
  intros Ha Hb. destruct b as [|p|p]; try lia.
  unfold Qle, Qmult, Qdiv, Qinv, inject_Z. simpl. split; nia.
Qed.

(** Verbatim occurrence scores 1. *)
Lemma reconstruction_verbatim (paom_context : string) (c : InteractionChunk) :
  Py.contains (chunk_text_of c) paom_context = true ->
  reconstruction_against paom_context c = 1%Q.
Proof. intros H. unfold reconstruction_against. rewrite H. reflexivity. Qed.

(** Otherwise the score is 0.9 times the share of the chunk's words that
    occur in the context, the divisor being 1 when the chunk has no
    word. *)
Lemma reconstruction_partial (paom_context : string) (c : InteractionChunk) :
  Py.contains (chunk_text_of c) paom_context = false ->
  reconstruction_against paom_context c =
  (inject_Z (Z.of_nat (size (word_set (chunk_text_of c) ∩ word_set paom_context)))
   / inject_Z (Z.of_nat (Nat.max (size (word_set (chunk_text_of c))) 1))
   * (9 # 10))%Q.
Proof. intros H. unfold reconstruction_against. rewrite H. reflexivity. Qed.

(** The score lies in [[0, 1]] for every chunk and every context. *)
Lemma reconstruction_range (paom_context : string) (c : InteractionChunk) :
  (0 <= reconstruction_against paom_context c /\
   reconstruction_against paom_context c <= 1)%Q.
Proof.
  destruct (Py.contains (chunk_text_of c) paom_context) eqn:E.
  - rewrite reconstruction_verbatim by exact E. split; discriminate.
  - rewrite reconstruction_partial by exact E.
    set (cw := word_set (chunk_text_of c)).
    set (xw := word_set paom_context).
    assert (Hsub : (size (cw ∩ xw) <= size cw)%nat)
      by (apply subseteq_size, intersection_subseteq_l).
    destruct (overlap_ratio_range (Z.of_nat (size (cw ∩ xw)))
                (Z.of_nat (Nat.max (size cw) 1))) as [H0 H1]; [lia | lia |].
    split; [exact H0|].
    eapply Qle_trans; [exact H1|]. discriminate.
Qed.

(** The empty text occurs in every context. *)
Lemma contains_empty (s : string) : Py.contains "" s = true.
Proof. destruct s; reflexivity. Qed.

(** A chunk whose text has no word and does not occur in the context
    scores 0, without dividing by zero. *)
Lemma reconstruction_no_words (paom_context : string) (c : InteractionChunk) :
  Py.contains (chunk_text_of c) paom_context = false ->
  Py.split (Py.lower (chunk_text_of c)) = [] ->
  (reconstruction_against paom_context c == 0)%Q.
Proof.
  intros Hc Hw. rewrite reconstruction_partial by exact Hc.
  unfold word_set. rewrite Hw. simpl.
  rewrite intersection_empty_l_L. reflexivity.
Qed.

(** C5 (fails on the code).  The score is claimed to be 0.0 for a chunk
    whose concatenated text is empty.  The empty text occurs verbatim in
    every context, so the test [chunk_text in paom_context] succeeds and
    the score is 1.0; the guarded division that would give 0.0 is not
    reached.  A chunk of one message with empty content, against the
    context of a memory without a record. *)
Theorem reconstruction_of_empty_text_is_one :
  let c := mkInteractionChunk "t_chunk_0" 0 1 [user_says ""] "question" 1
             sample_time in
  let om := mkObservationalMemory (mkObservationConfig 30000 40000 0 0) in
  let self := mkIPAEvaluator default_chunker (Some om) in
  chunk_text_of c = "" /\
  get_context om "t" = "No observations yet." /\
  _measure_reconstruction_quality self c "t" = 1%Q /\
  ~ (_measure_reconstruction_quality self c "t" == 0)%Q.
Proof.
  cbv zeta. repeat split. discriminate.
Qed.

(** ** Credit assignment *)

Lemma fold_left_Qplus (xs : list Q) :
  forall a : Q, (fold_left Qplus xs a == a + Qsum xs)%Q.
Proof.
  induction xs as [|x xs IH]; intros a; simpl.
  - rewrite Qplus_0_r. reflexivity.
  - rewrite IH. rewrite Qplus_assoc. reflexivity.
Qed.

Lemma py_sum_Qsum (xs : list Q) : (py_sum xs == Qsum xs)%Q.
Proof. unfold py_sum. rewrite fold_left_Qplus. apply Qplus_0_l. Qed.

Lemma Qsum_positive (xs : list Q) :
  xs <> [] -> Forall (fun x => (0 < x)%Q) xs -> (0 < Qsum xs)%Q.
Proof.
  intros Hne Hall. induction Hall as [|x xs Hx Hall IH]; [congruence|].
  simpl. destruct xs as [|y ys].
  - simpl. rewrite Qplus_0_r. exact Hx.
  - rewrite <- (Qplus_0_r 0). apply Qplus_lt_le_compat; [exact Hx|].
    apply Qlt_le_weak, IH. discriminate.
Qed.

Lemma evaluate_chunk_scored (self : IPAEvaluator) (thread_id : string)
    (c : InteractionChunk) :
  chunk_scored self thread_id c (_evaluate_chunk self c thread_id).
Proof.
  unfold chunk_scored, _evaluate_chunk; cbn.
  repeat split; try reflexivity. ring.
Qed.

(** The importance of the chunks of a non-empty chunking sums to a
    positive number, so the aggregate never takes its zero fallback. *)
Lemma total_importance_positive (self : InteractionChunker)
    (msgs : list message) (now : nat -> datetime) (thread_id : string)
    (chunks : list InteractionChunk) :
  1 <= max_chunk_size self ->
  chunk self msgs now thread_id = Ok chunks -> chunks <> [] ->
  (0 < py_sum (map importance chunks))%Q.
Proof.
  intros Hmax Hrun Hne.
  destruct (chunk_structure self msgs now thread_id Hmax)
    as (chunks' & Hrun' & _ & _ & Hwf & _).
  rewrite Hrun in Hrun'. injection Hrun' as <-.
  rewrite py_sum_Qsum. apply Qsum_positive.
  - destruct chunks; [congruence | discriminate].
  - apply List.Forall_map. eapply Forall_impl; [exact Hwf|].
    intros c (Hs & _ & _ & _ & E). rewrite E.
    eapply Qlt_trans; [|apply importance_at_range; exact Hs]. reflexivity.
Qed.

(** C6.  For every message sequence [evaluate_thread] returns; each
    result carries [credit_assigned = importance * reconstruction_quality]
    and [overall_score = 0.5 * credit_assigned + 0.3 * temporal_relevance
    + 0.2 * reconstruction_quality]; the aggregate is
    [100 * (sum of credit_assigned / sum of importance)] over the chunks,
    and it is 0 with an empty result list when there is no chunk, as for
    the empty sequence.  The chunker is taken with a positive maximum
    size, without which its loop makes no progress. *)
Theorem evaluate_thread_credit_assignment (self : IPAEvaluator)
    (now : nat -> datetime) (msgs : list message) (thread_id : string) :
  1 <= max_chunk_size (chunker self) ->
  exists chunks results score,
    chunk (chunker self) msgs now thread_id = Ok chunks /\
    evaluate_thread self now msgs thread_id = Ok (results, score) /\
    Forall2 (chunk_scored self thread_id) chunks results /\
    (chunks <> [] ->
     (score == 100 * (Qsum (map credit_assigned results)
                      / Qsum (map importance chunks)))%Q) /\
    (chunks = [] -> results = [] /\ score = 0%Q) /\
    (msgs = [] -> chunks = []).
Proof.
  intros Hmax.
  destruct (chunk_returns (chunker self) msgs now thread_id Hmax)
    as (chunks & Hrun & Ht).
  exists chunks, (map (fun c => _evaluate_chunk self c thread_id) chunks).
  eexists. split; [exact Hrun|]. split.
  { unfold evaluate_thread. rewrite Hrun. cbn [bind]. reflexivity. }
  split.
  { clear. induction chunks as [|c cs IH]; constructor;
      [apply evaluate_chunk_scored | exact IH]. }
  split; [|split].
  - intros Hne.
    pose proof (total_importance_positive _ _ _ _ _ Hmax Hrun Hne) as Hpos.
    unfold _calculate_overall_score.
    destruct chunks as [|c cs]; [congruence|]. cbn [map].
    change (_evaluate_chunk self c thread_id
            :: map (fun c0 => _evaluate_chunk self c0 thread_id) cs)
      with (map (fun c0 => _evaluate_chunk self c0 thread_id) (c :: cs)).
    change (importance c :: map importance cs) with (map importance (c :: cs)) in *.
    destruct (Qlt_le_dec 0 (py_sum (map importance (c :: cs)))) as [_|Hle].
    + rewrite !py_sum_Qsum. apply Qmult_comm.
    + exfalso. exact (Qlt_not_le _ _ Hpos Hle).
  - intros ->. split; reflexivity.
  - intros ->. destruct chunks as [|c cs]; [reflexivity|].
    destruct Ht as (Hlt & _). simpl in Hlt. lia.
Qed.

Lemma evaluate_thread_credit_assignment_witness :
  exists results score,
    evaluate_thread default_evaluator sample_clock
      [user_says "can you help"; user_says "write a parser"] "t"
    = Ok (results, score).
Proof.
  destruct (evaluate_thread_credit_assignment default_evaluator sample_clock
              [user_says "can you help"; user_says "write a parser"] "t")
    as (chunks & results & score & _ & H & _).
  - simpl. lia.
  - exists results, score. exact H.
Defined.

(** ** Substrings *)

Lemma string_app_assoc (a b c : string) : (a +:+ b) +:+ c = a +:+ (b +:+ c).
Proof.
  induction a as [|x a IH]; [reflexivity|].
  change (String x ((a +:+ b) +:+ c) = String x (a +:+ b +:+ c)).
  now rewrite IH.
Qed.

Lemma prefix_spec (p s : string) :
  String.prefix p s = true <-> exists b, s = p +:+ b.
Proof.
  revert s. induction p as [|x p IH]; intros s.
  - split; [intros _; exists s; reflexivity | intros _; destruct s; reflexivity].
  - destruct s as [|y s]; simpl.
    + split; [discriminate | intros (b & Hb); discriminate].
    + destruct (ascii_dec x y) as [->|Hne].
      * rewrite IH. split; intros (b & Hb); exists b.
        -- rewrite Hb. reflexivity.
        -- change (String y s = String y (p +:+ b)) in Hb. congruence.
      * split; [discriminate|]. intros (b & Hb).
        change (String y s = String x (p +:+ b)) in Hb. congruence.
Qed.

(** [Py.contains p s] holds exactly when [s] is some text, then [p], then
    some text. *)
Lemma contains_spec (p s : string) :
  Py.contains p s = true <-> exists a b, s = a +:+ p +:+ b.
Proof.
  split.
  - induction s as [|c s IH]; cbn [Py.contains]; rewrite orb_true_iff.
    + intros [H|H]; [|discriminate].
      apply prefix_spec in H as (b & Hb). exists "", b. exact Hb.
    + intros [H|H].
      * apply prefix_spec in H as (b & Hb). exists "", b. exact Hb.
      * destruct (IH H) as (a & b & ->). exists (String c a), b. reflexivity.
  - intros (a & b & ->). induction a as [|c a IH].
    + assert (H : String.prefix p (p +:+ b) = true)
        by (apply prefix_spec; exists b; reflexivity).
      change ("" +:+ p +:+ b) with (p +:+ b).
      destruct (p +:+ b); cbn [Py.contains]; rewrite H; reflexivity.
    + change (String c a +:+ p +:+ b) with (String c (a +:+ p +:+ b)).
      cbn [Py.contains]. rewrite IH. apply orb_true_r.
Qed.

Lemma lower_app (a b : string) : Py.lower (a +:+ b) = Py.lower a +:+ Py.lower b.
Proof.
  induction a as [|x a IH]; [reflexivity|].
  change (String (Py.lower_ascii x) (Py.lower (a +:+ b))
          = String (Py.lower_ascii x) (Py.lower a +:+ Py.lower b)).
  now rewrite IH.
Qed.

Lemma contains_lower (p s : string) :
  Py.contains p s = true -> Py.contains (Py.lower p) (Py.lower s) = true.
Proof.
  rewrite !contains_spec. intros (a & b & ->).
  exists (Py.lower a), (Py.lower b). now rewrite !lower_app.
Qed.

Lemma contains_trans (q p s : string) :
  Py.contains q p = true -> Py.contains p s = true -> Py.contains q s = true.
Proof.
  rewrite !contains_spec. intros (a1 & b1 & ->) (a2 & b2 & ->).
  exists (a2 +:+ a1), (b1 +:+ b2). now rewrite !string_app_assoc.
Qed.

(** A text that contains "my kids" contains "kids" once lower-cased. *)
Lemma my_kids_is_family (text : string) :
  Py.contains "my kids" text = true ->
  Py.contains "kids" (Py.lower text) = true.
Proof.
  intros H. apply contains_lower in H.
  eapply contains_trans; [|exact H]. reflexivity.
Qed.

(** ** The reflector's fallback *)

Lemma condensed_red_and_yellow (obss : list Observation) :
  List.filter is_red_or_yellow obss = red_and_yellow obss.
Proof.
  unfold red_and_yellow. apply List.filter_ext. intros o.
  unfold is_red_or_yellow. destruct (priority o); reflexivity.
Qed.

Lemma filter_drops_one {A : Type} (f : A -> bool) (l : list A) (x : A) :
  In x l -> f x = false -> (length (List.filter f l) < length l)%nat.
Proof.
  induction l as [|y l IH]; intros Hin Hx; [destruct Hin|].
  pose proof (List.filter_length_le f l) as Hle.
  destruct Hin as [->|Hin]; simpl.
  - rewrite Hx. lia.
  - specialize (IH Hin Hx). destruct (f y); simpl; lia.
Qed.

(** C7.  The fallback [reflect] returns, for every observation list, the
    RED and YELLOW observations of the input in input order, followed by
    one synthesized RED observation that states how many were kept when
    at least one was, and the empty list when none was.  So no GREEN
    observation is in the output, every RED observation of the input is
    in the output, and the output is no longer than an input that
    contains a GREEN observation. *)
Theorem reflect_fallback (obss : list Observation) :
  exists out,
    reflect obss = Ok out /\
    (red_and_yellow obss = [] -> out = []) /\
    (red_and_yellow obss <> [] ->
     exists summary,
       out = red_and_yellow obss ++ [summary] /\
       priority summary = RED /\
       obs_content summary =
         "Memory consolidated: "
         +:+ Py.str_of_nat (length (red_and_yellow obss))
         +:+ " key observations preserved") /\
    Forall (fun o => priority o <> GREEN) out /\
    (forall o, In o obss -> priority o = RED -> In o out) /\
    ((exists o, In o obss /\ priority o = GREEN) ->
     (length out <= length obss)%nat).
Proof.
  unfold reflect, _simple_condensation.
  rewrite condensed_red_and_yellow.
  assert (Hkept : Forall (fun o => priority o <> GREEN) (red_and_yellow obss)).
  { apply List.Forall_forall. intros o Ho.
    apply List.filter_In in Ho as [_ Ho]. destruct (priority o); congruence. }
  assert (Hred : forall o, In o obss -> priority o = RED ->
                           In o (red_and_yellow obss)).
  { intros o Ho Hp. apply List.filter_In. split; [exact Ho|]. now rewrite Hp. }
  destruct (red_and_yellow obss) as [|k kept] eqn:E.
  - exists []. split; [reflexivity|]. split; [reflexivity|].
    split; [congruence|]. split; [constructor|]. split; [exact Hred|].
    intros _. simpl. lia.
  - destruct obss as [|first rest]; [discriminate E|]. cbn [bind].
    eexists. split; [reflexivity|]. split; [discriminate|]. split; [|split; [|split]].
    + intros _. eexists. split; [reflexivity|]. split; reflexivity.
    + apply Forall_app. split; [exact Hkept|].
      constructor; [discriminate | constructor].
    + intros o Ho Hp. apply in_or_app. left. exact (Hred o Ho Hp).
    + intros (g & Hg & Hp).
      assert (Hlt : (length (red_and_yellow (first :: rest))
                     < length (first :: rest))%nat).
      { apply (filter_drops_one _ _ g Hg). now rewrite Hp. }
      rewrite E in Hlt. rewrite length_app. simpl in *. lia.
Qed.

Lemma reflect_fallback_witness :
  exists out,
    reflect [new_observation sample_time RED "prefers tea";
             new_observation sample_time GREEN "said hello";
             new_observation sample_time YELLOW "uses the staging server"]
    = Ok out /\ (length out <= 3)%nat.
Proof.
  destruct (reflect_fallback
              [new_observation sample_time RED "prefers tea";
               new_observation sample_time GREEN "said hello";
               new_observation sample_time YELLOW "uses the staging server"])
    as (out & Hrun & _ & _ & _ & _ & Hlen).
  exists out. split; [exact Hrun|].
  apply Hlen. eexists. split; [right; left; reflexivity | reflexivity].
Defined.

(** ** The observer's fallback *)

Section ObserverFacts.

Variable now : nat -> datetime.

Lemma extraction_loop_contributions (msgs : list message) :
  forall (k : nat) (acc : list Observation),
    extraction_loop now k msgs acc =
    acc ++ concat (imap (fun i => contribution now (k + i)) msgs).
Proof.
  induction msgs as [|msg msgs IH]; intros k acc.
  - simpl. now rewrite app_nil_r.
  - cbn [imap concat]. rewrite Nat.add_0_r.
    assert (Hshift : imap ((fun i => contribution now (k + i)) ∘ S) msgs
                     = imap (fun i => contribution now (S k + i)) msgs).
    { apply imap_ext. intros i x _. simpl. f_equal. lia. }
    rewrite Hshift. unfold contribution. cbn [extraction_loop].
    destruct (role_is_user msg); [|rewrite IH; reflexivity].
    destruct (_ || _).
    + rewrite IH, <- app_assoc. reflexivity.
    + destruct (_ || _); rewrite IH; [|reflexivity].
      rewrite <- app_assoc. reflexivity.
Qed.

(** C8.  The fallback extraction is the concatenation, in message order,
    of what each message contributes; a message contributes at most one
    observation, and none unless its role is "user"; a user message
    whose content contains "my kids" contributes exactly one RED
    observation flagging a family mention; a user message that matches
    the work keywords and not the family keywords contributes exactly one
    YELLOW observation.  Either observation is anchored to the message's
    own timestamp, and to the clock reading when the message has none;
    the content of a message without one is the empty text. *)
Theorem simple_extraction_per_message (msgs : list message) :
  _simple_extraction now msgs = concat (imap (contribution now) msgs) /\
  fst (fst (extract_observations now msgs "")) = _simple_extraction now msgs /\
  forall (k : nat) (msg : message),
    (length (contribution now k msg) <= 1)%nat /\
    (msg_role msg <> Some "user" -> contribution now k msg = []) /\
    (msg_role msg = Some "user" ->
     (Py.contains "my kids" (content_text msg) = true ->
      contribution now k msg =
      [mkObservation (default (now k) (msg_timestamp msg)) None RED
         "User mentioned family (children)"]) /\
     (mentions_work (content_text msg) = true ->
      mentions_family (content_text msg) = false ->
      contribution now k msg =
      [mkObservation (default (now k) (msg_timestamp msg)) None YELLOW
         "User discussed work situation"]) /\
     (forall t : datetime,
        msg_timestamp msg = Some t ->
        (Py.contains "my kids" (content_text msg) = true ->
         contribution now k msg =
         [mkObservation t None RED "User mentioned family (children)"]) /\
        (mentions_work (content_text msg) = true ->
         mentions_family (content_text msg) = false ->
         contribution now k msg =
         [mkObservation t None YELLOW "User discussed work situation"]))).
Proof.
  split; [|split].
  - unfold _simple_extraction. rewrite extraction_loop_contributions.
    reflexivity.
  - reflexivity.
  - intros k msg. unfold contribution. cbn [extraction_loop].
    split; [|split].
    + destruct (role_is_user msg); [|simpl; lia].
      destruct (_ || _); [simpl; lia|]. destruct (_ || _); simpl; lia.
    + intros Hrole. unfold role_is_user.
      destruct (msg_role msg) as [r|]; [|reflexivity].
      destruct (String.eqb_spec r "user") as [->|_]; [congruence | reflexivity].
    + intros Hrole. unfold role_is_user. rewrite Hrole.
      change (String.eqb "user" "user") with true. cbv iota.
      change (default "" (msg_content msg)) with (content_text msg).
      fold (mentions_family (content_text msg)).
      fold (mentions_work (content_text msg)).
      assert (Hred : Py.contains "my kids" (content_text msg) = true ->
                     mentions_family (content_text msg) = true).
      { intros Hkids. unfold mentions_family.
        now rewrite (my_kids_is_family _ Hkids). }
      split; [|split].
      * intros Hkids. rewrite (Hred Hkids). reflexivity.
      * intros Hwork Hfamily. rewrite Hfamily, Hwork. reflexivity.
      * intros t Htime. rewrite Htime. cbn [from_option id]. split.
        -- intros Hkids. rewrite (Hred Hkids). reflexivity.
        -- intros Hwork Hfamily. rewrite Hfamily, Hwork. reflexivity.
Qed.

End ObserverFacts.

Lemma simple_extraction_per_message_witness :
  contribution sample_clock 0 (user_says "I took my kids to school")
  = [mkObservation sample_time None RED "User mentioned family (children)"]
  /\ contribution (fun _ => mkDatetime 2026 3 1 8 0 0) 1
       (mkMessage (Some "user") (Some "Back at work now") None)
     = [mkObservation (mkDatetime 2026 3 1 8 0 0) None YELLOW
          "User discussed work situation"].
Proof.
  split.
  - pose proof (simple_extraction_per_message sample_clock []) as (_ & _ & H).
    destruct (H 0%nat (user_says "I took my kids to school"))
      as (_ & _ & Hm).
    destruct (Hm eq_refl) as (_ & _ & Hown).
    destruct (Hown sample_time eq_refl) as (Hred & _).
    apply Hred. reflexivity.
  - pose proof (simple_extraction_per_message
                  (fun _ => mkDatetime 2026 3 1 8 0 0) []) as (_ & _ & H).
    destruct (H 1%nat (mkMessage (Some "user") (Some "Back at work now") None))
      as (_ & _ & Hm).
    destruct (Hm eq_refl) as (_ & Hyellow & _).
    apply Hyellow; reflexivity.
Defined.

(** ** The controller without a record *)

(** The reflector's fallback returns for every input. *)
Lemma reflect_returns (obss : list Observation) :
  exists out, reflect obss = Ok out.
Proof.
  unfold reflect, _simple_condensation.
  destruct (List.filter is_red_or_yellow obss) as [|k kept] eqn:E.
  - eexists. reflexivity.
  - destruct obss as [|first rest]; [discriminate E|].
    eexists. reflexivity.
Qed.

(** The stats of a thread without a record have no task flag. *)
Lemma stats_without_record_lack_task_flag :
  get_observation_record sample_memory "thread-1" = None /\
  get_stats sample_memory "thread-1" !! "has_current_task" = None /\
  ~ reads_without_record sample_memory "thread-1".
Proof.
  split; [reflexivity|]. split; [reflexivity|].
  intros (_ & _ & H & _). vm_compute in H. discriminate H.
Qed.

(** C9 (amended).  For a thread without a record the reads do not fail:
    [get_context] returns the sentinel, [get_stats] returns the stats
    that hold the zero count [total_observations = 0] and nothing else
    (no [has_current_task] entry), and [force_reflection] returns its
    "nothing to reflect" result; [force_reflection] fails for no thread
    id. *)
Theorem reads_of_missing_record (self : ObservationalMemory)
    (thread_id : string) :
  get_observation_record self thread_id = None ->
  get_context self thread_id = "No observations yet." /\
  get_stats self thread_id = {[ "total_observations" := StatInt 0 ]} /\
  get_stats self thread_id !! "total_observations" = Some (StatInt 0) /\
  get_stats self thread_id !! "has_current_task" = None /\
  force_reflection self thread_id = Ok "No observations to reflect." /\
  (forall other : string, exists text, force_reflection self other = Ok text).
Proof.
  intros Hnone. unfold get_context, get_stats, force_reflection.
  rewrite Hnone. repeat split.
  intros other. eexists. reflexivity.
Qed.

Lemma reads_of_missing_record_witness :
  get_context sample_memory "thread-1" = "No observations yet." /\
  force_reflection sample_memory "thread-1" = Ok "No observations to reflect.".
Proof.
  destruct (reads_of_missing_record sample_memory "thread-1")
    as (Hctx & _ & _ & _ & Hforce & _).
  - reflexivity.
  - split; [exact Hctx | exact Hforce].
Defined.

(** ** No state across calls *)

Section Persistence.

Variable count_observations : list Observation -> Z.
Variable now : nat -> datetime.

(** What one call returns: a record built from the empty record and the
    messages of the call only, and the controller as it was. *)
Lemma process_messages_fresh (self : ObservationalMemory) (thread_id : string)
    (msgs : list message) (existing : string) :
  exists out,
    process_messages count_observations now self thread_id msgs existing
    = Ok (mkObservationalMemoryRecord out None None, self) /\
    (count_observations (_simple_extraction now msgs)
     <= reflection_threshold (config self) ->
     out = _simple_extraction now msgs) /\
    (reflection_threshold (config self)
     < count_observations (_simple_extraction now msgs) ->
     reflect (_simple_extraction now msgs) = Ok out).
Proof.
  unfold process_messages, get_observation_record, extract_observations.
  cbn [observations empty_record app current_task suggested_response].
  destruct (Z.ltb_spec (reflection_threshold (config self))
              (count_observations (_simple_extraction now msgs))) as [Hlt|Hle].
  - destruct (reflect_returns (_simple_extraction now msgs)) as (out & Hout).
    exists out. rewrite Hout. cbn [bind Py.or_text].
    split; [reflexivity|]. split; [lia | auto].
  - exists (_simple_extraction now msgs). cbn [bind Py.or_text].
    split; [reflexivity|]. split; [auto | lia].
Qed.

Lemma process_all_unchanged (calls : list (string * list message)) :
  forall self : ObservationalMemory,
    process_all count_observations now self calls = Ok self.
Proof.
  induction calls as [|call calls IH]; intros self; [reflexivity|].
  cbn [process_all].
  destruct (process_messages_fresh self (fst call) (snd call) "")
    as (out & -> & _).
  cbn [bind snd]. apply IH.
Qed.

(** C10.  [get_observation_record] returns [None] for every thread id.
    So after any sequence of [process_messages] calls the controller is
    as it was, [get_context] returns the sentinel and [get_stats]
    returns [{"total_observations": 0}] for every thread; and every
    [process_messages] call returns a record built from the empty
    record and the messages of that call: its observations are the
    ones extracted from those messages, condensed by the reflector when
    their count exceeds the reflection threshold. *)
Theorem nothing_persists (self : ObservationalMemory)
    (calls : list (string * list message)) (thread_id : string) :
  get_observation_record self thread_id = None /\
  exists after,
    process_all count_observations now self calls = Ok after /\
    get_observation_record after thread_id = None /\
    get_context after thread_id = "No observations yet." /\
    get_stats after thread_id = {[ "total_observations" := StatInt 0 ]} /\
    forall (msgs : list message) (existing : string),
      exists out,
        process_messages count_observations now after thread_id msgs existing
        = Ok (mkObservationalMemoryRecord out None None, after) /\
        (count_observations (_simple_extraction now msgs)
         <= reflection_threshold (config after) ->
         out = _simple_extraction now msgs) /\
        (reflection_threshold (config after)
         < count_observations (_simple_extraction now msgs) ->
         reflect (_simple_extraction now msgs) = Ok out).
Proof.
  split; [reflexivity|].
  exists self. split; [apply process_all_unchanged|].
  repeat split. intros msgs existing. apply process_messages_fresh.
Qed.

End Persistence.

Lemma nothing_persists_witness :
  exists out,
    process_messages (fun obss => Z.of_nat (length obss)) sample_clock
      sample_memory "thread-1" [user_says "my kids are asleep"] ""
    = Ok (mkObservationalMemoryRecord out None None, sample_memory) /\
    out = _simple_extraction sample_clock [user_says "my kids are asleep"].
Proof.
  destruct (nothing_persists (fun obss => Z.of_nat (length obss)) sample_clock
              sample_memory
              [("thread-1", [user_says "I changed my job"])] "thread-1")
    as (_ & after & Hafter & _ & _ & _ & Hcall).
  vm_compute in Hafter. injection Hafter as <-.
  destruct (Hcall [user_says "my kids are asleep"] "") as (out & Hrun & Hsame & _).
  exists out. split; [exact Hrun|].
  apply Hsame. vm_compute. discriminate.
Defined.

(** * Further properties *)

(** ** Chunk sizes and boundaries *)

Lemma range_split (a b j : Z) :
  a <= j < b -> Py.range a b = Py.range a j ++ j :: Py.range (j + 1) b.
Proof.
  intros Hj. unfold Py.range.
  replace (Z.to_nat (b - a))
    with (Z.to_nat (j - a) + S (Z.to_nat (b - (j + 1))))%nat by lia.
  rewrite seq_app, map_app. cbn [seq map Nat.add]. f_equal.
  f_equal; [lia|].
  assert (Hshift : forall n s t a' b',
             a' + Z.of_nat s = b' + Z.of_nat t ->
             map (fun k : nat => a' + Z.of_nat k) (seq s n)
             = map (fun k : nat => b' + Z.of_nat k) (seq t n)).
  { induction n as [|n IH]; intros s t a' b' E; [reflexivity|].
    cbn [seq map]. f_equal; [exact E|]. apply IH. lia. }
  apply Hshift. lia.
Qed.

Section BoundaryFacts.

Variable self : InteractionChunker.
Variable msgs : list message.

Let len : Z := Z.of_nat (length msgs).

(** When the look-ahead changes the size, it is to the offset of an index
    whose message is of another type than the current one. *)
Lemma boundary_scan_shift (current_type : string) (start : Z) (js : list Z)
    (size : Z) :
  boundary_scan self msgs current_type start js size = size \/
  exists j,
    In j js /\ single_type self msgs j <> current_type /\
    boundary_scan self msgs current_type start js size = j - start.
Proof.
  revert size. induction js as [|j js IH]; intros size; cbn [boundary_scan].
  - now left.
  - fold (single_type self msgs j).
    destruct (String.eqb_spec (single_type self msgs j) current_type) as [E|Hne].
    + destruct (IH size) as [->|(j' & Hj' & Hd & ->)]; [now left|].
      right. exists j'. simpl. auto.
    + right. destruct (Z.leb_spec (min_chunk_size self) (j - start)).
      * exists j. simpl. auto.
      * destruct (IH (j - start)) as [->|(j' & Hj' & Hd & ->)].
        -- exists j. simpl. auto.
        -- exists j'. simpl. auto.
Qed.

(** The look-ahead stops at the first index whose message is of another
    type and whose offset reaches [min_chunk_size]. *)
Lemma boundary_scan_first_shift (current_type : string) (start : Z)
    (pre : list Z) (j0 : Z) (post : list Z) :
  forall size : Z,
    Forall (fun j => single_type self msgs j = current_type
                     \/ j - start < min_chunk_size self) pre ->
    single_type self msgs j0 <> current_type ->
    min_chunk_size self <= j0 - start ->
    boundary_scan self msgs current_type start (pre ++ j0 :: post) size
    = j0 - start.
Proof.
  induction pre as [|j pre IH]; intros size Hpre Hne Hmin;
    cbn [app boundary_scan].
  - fold (single_type self msgs j0).
    destruct (String.eqb_spec (single_type self msgs j0) current_type);
      [congruence|].
    destruct (Z.leb_spec (min_chunk_size self) (j0 - start)); [reflexivity | lia].
  - fold (single_type self msgs j).
    apply Forall_cons_1 in Hpre as [Hj Hpre].
    destruct (String.eqb_spec (single_type self msgs j) current_type) as [E|Hd].
    + apply IH; assumption.
    + destruct Hj as [Hj|Hj]; [congruence|].
      destruct (Z.leb_spec (min_chunk_size self) (j - start)); [lia|].
      apply IH; assumption.
Qed.

(** X6.  A chunk keeps its candidate size unless it is cut, and it is cut
    only at an index inside the candidate window, before the end of the
    sequence, whose message taken alone is of another type than the
    chunk's first message taken alone. *)
Theorem chunk_cut_only_at_type_shift (start : Z) :
  let size := _determine_chunk_size self msgs start in
  size = candidate_size self msgs start \/
  (start + candidate_size self msgs start < len /\
   1 <= size < candidate_size self msgs start /\
   single_type self msgs (start + size) <> single_type self msgs start).
Proof.
  cbv zeta. unfold _determine_chunk_size, candidate_size. fold len.
  set (cand := Z.min (max_chunk_size self)
                 (Z.max (min_chunk_size self) (len - start))).
  destruct (Z.ltb_spec (start + cand) len) as [Hlt|Hge]; [|now left].
  fold (single_type self msgs start).
  match goal with
  | |- context [boundary_scan _ _ ?c ?st ?js ?sz] =>
      destruct (boundary_scan_shift c st js sz) as [->|(j & Hj & Hd & ->)]
  end; [now left|].
  right. apply range_spec in Hj.
  replace (start + (j - start)) with j by lia.
  split; [assumption|]. split; [lia | exact Hd].
Qed.

(** X7.  When the candidate window ends before the sequence does, and
    [j0] is the first index of the window whose message is of another
    type than the chunk's first message at an offset of at least
    [min_chunk_size], the chunk is cut at [j0]. *)
Theorem chunk_cut_at_first_admissible_shift (start j0 : Z) :
  start + candidate_size self msgs start < len ->
  start < j0 < start + candidate_size self msgs start ->
  min_chunk_size self <= j0 - start ->
  single_type self msgs j0 <> single_type self msgs start ->
  (forall j, start < j < j0 ->
             single_type self msgs j = single_type self msgs start
             \/ j - start < min_chunk_size self) ->
  _determine_chunk_size self msgs start = j0 - start.
Proof.
  intros Hwin Hj0 Hmin Hne Hbefore.
  unfold _determine_chunk_size. unfold candidate_size in Hwin, Hj0.
  fold len in Hwin, Hj0 |- *.
  set (cand := Z.min (max_chunk_size self)
                 (Z.max (min_chunk_size self) (len - start))) in *.
  destruct (Z.ltb_spec (start + cand) len) as [_|Hge]; [|lia].
  fold (single_type self msgs start).
  rewrite (range_split (start + 1) (Z.min (start + cand) len) j0) by lia.
  apply boundary_scan_first_shift; [|assumption|assumption].
  apply List.Forall_forall. intros j Hj. apply range_spec in Hj.
  apply Hbefore. lia.
Qed.

End BoundaryFacts.

Lemma chunk_cut_at_first_admissible_shift_witness :
  _determine_chunk_size default_chunker
    (repeat (user_says "write") 3 ++ user_says "why"
     :: repeat (user_says "write") 8) 0 = 3.
Proof.
  apply (chunk_cut_at_first_admissible_shift default_chunker
           (repeat (user_says "write") 3 ++ user_says "why"
            :: repeat (user_says "write") 8) 0 3).
  - vm_compute. reflexivity.
  - vm_compute. split; reflexivity.
  - vm_compute. discriminate.
  - vm_compute. discriminate.
  - intros j Hj. left.
    assert (Hcases : j = 1 \/ j = 2) by lia.
    destruct Hcases as [-> | ->]; vm_compute; reflexivity.
Defined.

(** ** The chunks of a chunking *)

Section ChunkListFacts.

Variable self : InteractionChunker.
Variable msgs : list message.
Variable now : nat -> datetime.
Variable thread_id : string.

Let len : Z := Z.of_nat (length msgs).

Lemma tiling_nth (cs : list InteractionChunk) :
  forall (i : Z) (k0 k : nat) (c : InteractionChunk),
    tiling self msgs now thread_id i k0 cs ->
    nth_error cs k = Some c ->
    exists j, c = chunk_at self msgs now thread_id j (k0 + k).
Proof.
  induction cs as [|c0 cs IH]; intros i k0 k c Ht Hk.
  - destruct k; discriminate Hk.
  - destruct Ht as (_ & -> & Ht). destruct k as [|k]; simpl in Hk.
    + injection Hk as <-. exists i. now rewrite Nat.add_0_r.
    + destruct (IH _ _ _ _ Ht Hk) as (j & ->). exists j.
      now rewrite Nat.add_succ_r.
Qed.

(** X4.  The chunks are numbered in order: chunk number [k] has the id
    [<thread_id>_chunk_<k>]; its semantic type is the classification of
    its own messages, and its timestamp is the clock reading taken when it
    was built. *)
Theorem chunk_ids_and_types (chunks : list InteractionChunk) (k : nat)
    (c : InteractionChunk) :
  1 <= max_chunk_size self ->
  chunk self msgs now thread_id = Ok chunks ->
  nth_error chunks k = Some c ->
  chunk_id c = thread_id +:+ "_chunk_" +:+ Py.str_of_nat k /\
  semantic_type c = _classify_semantic_type self (messages c) /\
  chunk_timestamp c = now k.
Proof.
  intros Hmax Hrun Hk.
  destruct (chunk_returns self msgs now thread_id Hmax) as (chunks' & Hrun' & Ht).
  rewrite Hrun in Hrun'. injection Hrun' as <-.
  destruct (tiling_nth chunks 0 0 k c Ht Hk) as (j & ->).
  repeat split.
Qed.

(** X5.  A non-empty conversation of at most [max_chunk_size] messages is
    one chunk that holds all of it; its index range starts at 0 and ends
    at the larger of [min_chunk_size] and the number of messages. *)
Theorem chunk_short_conversation :
  1 <= min_chunk_size self <= max_chunk_size self ->
  msgs <> [] -> len <= max_chunk_size self ->
  exists c,
    chunk self msgs now thread_id = Ok [c] /\
    start_idx c = 0 /\
    end_idx c = Z.max (min_chunk_size self) len /\
    messages c = msgs.
Proof.
  intros [Hmin Hmax] Hne Hlen.
  assert (Hpos : 0 < len).
  { assert (length msgs <> 0%nat)
      by (intros E; apply Hne; now apply List.length_zero_iff_nil).
    unfold len. lia. }
  destruct (chunk_returns self msgs now thread_id) as (chunks & Hrun & Ht); [lia|].
  destruct chunks as [|c cs]; [simpl in Ht; fold len in Ht; lia|].
  destruct Ht as (_ & -> & Ht).
  assert (Hsize : _determine_chunk_size self msgs 0
                  = Z.max (min_chunk_size self) len).
  { destruct (determine_chunk_size_cases self msgs 0) as [E|[H1 H2]];
      unfold candidate_size, len in *; lia. }
  cbn [end_idx chunk_at] in Ht. rewrite Hsize in Ht.
  destruct cs as [|c' cs].
  - exists (chunk_at self msgs now thread_id 0 0). split; [exact Hrun|].
    cbn [start_idx end_idx messages chunk_at]. rewrite Hsize.
    repeat split.
    rewrite slice_inside by lia. fold len.
    rewrite Z.min_r, Z.min_l by lia. simpl.
    apply take_ge. unfold len in *. lia.
  - destruct Ht as (Hlt & _). fold len in Hlt. lia.
Qed.

(** X8.  There are at most as many chunks as messages, and at least as
    many as are needed to hold the messages [max_chunk_size] at a time. *)
Theorem chunk_count_bounds (chunks : list InteractionChunk) :
  1 <= max_chunk_size self ->
  chunk self msgs now thread_id = Ok chunks ->
  (length chunks <= length msgs)%nat /\
  len <= max_chunk_size self * Z.of_nat (length chunks).
Proof.
  intros Hmax Hrun.
  destruct (chunk_structure self msgs now thread_id Hmax)
    as (chunks' & Hrun' & _ & _ & Hwf & Hcat).
  rewrite Hrun in Hrun'. injection Hrun' as <-.
  assert (Hsum : forall cs,
             Forall (well_formed_chunk self msgs) cs ->
             (length cs <= length (concat (map messages cs)))%nat /\
             Z.of_nat (length (concat (map messages cs)))
             <= max_chunk_size self * Z.of_nat (length cs)).
  { induction 1 as [|c cs Hc Hcs IH]; [simpl; lia|].
    cbn [map concat]. rewrite length_app. cbn [length].
    destruct Hc as (Hs & Hsz & Hm & Hn & _).
    assert (H1 : (1 <= length (messages c))%nat)
      by (destruct (messages c); [congruence | simpl; lia]).
    assert (H2 : Z.of_nat (length (messages c)) <= max_chunk_size self).
    { rewrite Hm, slice_length by lia. lia. }
    lia. }
  destruct (Hsum chunks Hwf) as [H1 H2]. rewrite Hcat in H1, H2.
  split; [exact H1 | exact H2].
Qed.

End ChunkListFacts.

Lemma chunk_ids_and_types_witness :
  exists c,
    chunk_id c = "t" +:+ "_chunk_" +:+ Py.str_of_nat 1 /\
    semantic_type c = _classify_semantic_type default_chunker (messages c) /\
    chunk_timestamp c = sample_clock 1.
Proof.
  eexists.
  eapply (chunk_ids_and_types default_chunker (repeat (user_says "write") 11)
            sample_clock "t" _ 1%nat).
  - simpl. lia.
  - vm_compute. reflexivity.
  - reflexivity.
Defined.

Lemma chunk_short_conversation_witness :
  exists c,
    chunk default_chunker [user_says "hello"; user_says "good morning"]
      sample_clock "t" = Ok [c] /\
    start_idx c = 0 /\
    end_idx c = Z.max 3 2 /\
    messages c = [user_says "hello"; user_says "good morning"].
Proof.
  apply (chunk_short_conversation default_chunker
           [user_says "hello"; user_says "good morning"] sample_clock "t").
  - simpl. lia.
  - discriminate.
  - simpl. lia.
Defined.

Lemma chunk_count_bounds_witness :
  exists chunks,
    chunk default_chunker (repeat (user_says "write") 11) sample_clock "t"
    = Ok chunks /\
    (length chunks <= length (repeat (user_says "write") 11))%nat.
Proof.
  eexists. split; [vm_compute; reflexivity|].
  refine (proj1 (chunk_count_bounds default_chunker
                   (repeat (user_says "write") 11) sample_clock "t" _ _ _)).
  - simpl. lia.
  - vm_compute. reflexivity.
Defined.

Lemma chunk_covering_witness :
  exists chunks,
    chunk default_chunker (repeat (user_says "write") 11) sample_clock "t"
    = Ok chunks /\
    concat (map messages chunks) = repeat (user_says "write") 11.
Proof.
  destruct (chunk_covering default_chunker (repeat (user_says "write") 11)
              sample_clock "t") as (chunks & Hrun & _ & _ & Hcat & _).
  - simpl. lia.
  - exists chunks. split; [exact Hrun | exact Hcat].
Defined.

Lemma chunk_importance_decreasing_witness :
  exists c1 c2 : InteractionChunk,
    (importance c2 < importance c1)%Q.
Proof.
  eexists. eexists.
  refine (proj1 (chunk_importance_decreasing default_chunker
                   (repeat (user_says "write") 11) sample_clock "t" _ _ _
                   _ _ _ _ _)).
  - simpl. lia.
  - vm_compute. reflexivity.
  - left. reflexivity.
  - right. left. reflexivity.
  - vm_compute. reflexivity.
Defined.

Lemma chunk_size_at_most_maximum_witness :
  exists chunks,
    chunk default_chunker (repeat (user_says "write") 11) sample_clock "t"
    = Ok chunks /\
    Forall (fun c => 1 <= end_idx c - start_idx c <= max_chunk_size default_chunker)
           chunks.
Proof.
  eexists. split; [vm_compute; reflexivity|].
  refine (chunk_size_at_most_maximum default_chunker
            (repeat (user_says "write") 11) sample_clock "t" _ _ _).
  - simpl. lia.
  - vm_compute. reflexivity.
Defined.

(** ** More on classification *)

Lemma max_item_in {K : Type} (items : list (K * nat)) :
  forall best : K * nat, In (Py.max_item best items) (map fst (best :: items)).
Proof.
  induction items as [|it items IH]; intros best; cbn [Py.max_item].
  - left. reflexivity.
  - destruct (snd best <? snd it)%nat.
    + right. apply IH.
    + destruct (IH best) as [H|H]; [left; exact H | right; right; exact H].
Qed.

(** X10.  The semantic type is "task" or one of the categories of the
    pattern dict; with the default patterns it is one of "question",
    "explanation", "correction" and "task". *)
Theorem classify_in_categories (self : InteractionChunker)
    (msgs : list message) :
  (_classify_semantic_type self msgs = "task" \/
   In (_classify_semantic_type self msgs) (map fst (semantic_patterns self))) /\
  (semantic_patterns self = default_semantic_patterns ->
   In (_classify_semantic_type self msgs)
      ["question"; "explanation"; "correction"; "task"]).
Proof.
  assert (Hgen : _classify_semantic_type self msgs = "task" \/
                 In (_classify_semantic_type self msgs)
                    (map fst (semantic_patterns self))).
  { unfold _classify_semantic_type, type_scores.
    destruct msgs as [|m0 msgs']; [now left|].
    destruct (semantic_patterns self) as [|kv0 kvs]; [now left|].
    right. cbn [map].
    match goal with
    | |- In (Py.max_item ?b ?its) _ => pose proof (max_item_in its b) as H
    end.
    cbn [map fst] in H. rewrite map_map in H. cbn [fst] in H. exact H. }
  split; [exact Hgen|].
  intros Hdef. rewrite Hdef in Hgen.
  destruct Hgen as [E|H]; [rewrite E; cbn; tauto | cbn in H |- *; tauto].
Qed.

Lemma classify_in_categories_witness :
  In (_classify_semantic_type default_chunker
        [user_says "Actually, that's wrong"])
     ["question"; "explanation"; "correction"; "task"].
Proof.
  apply (classify_in_categories default_chunker
           [user_says "Actually, that's wrong"]).
  reflexivity.
Defined.

Lemma lower_ascii_idempotent (c : ascii) :
  Py.lower_ascii (Py.lower_ascii c) = Py.lower_ascii c.
Proof. destruct c as [[] [] [] [] [] [] [] []]; reflexivity. Qed.

Lemma lower_idempotent (s : string) : Py.lower (Py.lower s) = Py.lower s.
Proof.
  induction s as [|c s IH]; [reflexivity|].
  cbn [Py.lower]. now rewrite lower_ascii_idempotent, IH.
Qed.

Lemma lower_join (sep : string) (l : list string) :
  Py.lower (Py.join sep l) = Py.join (Py.lower sep) (map Py.lower l).
Proof.
  unfold Py.join. induction l as [|x l IH]; [reflexivity|].
  destruct l as [|y l]; [reflexivity|].
  change (String.concat sep (x :: y :: l))
    with (x +:+ sep +:+ String.concat sep (y :: l)).
  change (String.concat (Py.lower sep) (map Py.lower (x :: y :: l)))
    with (Py.lower x +:+ Py.lower sep
          +:+ String.concat (Py.lower sep) (map Py.lower (y :: l))).
  now rewrite !lower_app, IH.
Qed.

(** X11.  Classification reads the contents only, and only up to letter
    case: two message lists whose contents agree once lower-cased have
    the same semantic type, whatever their roles and timestamps. *)
Theorem classify_case_insensitive (self : InteractionChunker)
    (msgs1 msgs2 : list message) :
  map (fun m => Py.lower (content_text m)) msgs1
  = map (fun m => Py.lower (content_text m)) msgs2 ->
  _classify_semantic_type self msgs1 = _classify_semantic_type self msgs2.
Proof.
  intros E.
  assert (Htext : chunk_text_lower msgs1 = chunk_text_lower msgs2).
  { unfold chunk_text_lower. rewrite !lower_join, !map_map. now rewrite E. }
  unfold _classify_semantic_type. rewrite Htext.
  destruct msgs1, msgs2; try reflexivity; discriminate E.
Qed.

Lemma classify_case_insensitive_witness :
  _classify_semantic_type default_chunker
    [mkMessage (Some "assistant") (Some "WHY NOT Build It?") None]
  = _classify_semantic_type default_chunker [user_says "why not build it?"].
Proof.
  apply classify_case_insensitive. reflexivity.
Defined.

Lemma classify_highest_first_witness :
  exists pre kv post,
    semantic_patterns default_chunker = pre ++ kv :: post /\
    _classify_semantic_type default_chunker [user_says "please write it"]
    = fst kv.
Proof.
  destruct (classify_highest_first default_chunker [user_says "please write it"])
    as (pre & kv & post & Hsplit & Hres & _).
  - discriminate.
  - discriminate.
  - exists pre, kv, post. split; [exact Hsplit | exact Hres].
Defined.

(** ** More on reconstruction quality *)

(** X12.  With a memory attached, the measured reconstruction quality of
    any chunk, also one not built by the chunker, lies in [[0, 1]]. *)
Theorem measured_reconstruction_range (self : IPAEvaluator)
    (om : ObservationalMemory) (c : InteractionChunk) (thread_id : string) :
  paom self = Some om ->
  (0 <= _measure_reconstruction_quality self c thread_id /\
   _measure_reconstruction_quality self c thread_id <= 1)%Q.
Proof.
  intros Hom. unfold _measure_reconstruction_quality. rewrite Hom.
  apply reconstruction_range.
Qed.

Lemma measured_reconstruction_range_witness :
  (0 <= _measure_reconstruction_quality
          (mkIPAEvaluator default_chunker (Some sample_memory))
          (mkInteractionChunk "t_chunk_0" 0 1 [user_says "No yet. foo bar"]
             "question" 1 sample_time) "t" /\
   _measure_reconstruction_quality
     (mkIPAEvaluator default_chunker (Some sample_memory))
     (mkInteractionChunk "t_chunk_0" 0 1 [user_says "No yet. foo bar"]
        "question" 1 sample_time) "t" <= 1)%Q.
Proof.
  apply (measured_reconstruction_range _ sample_memory). reflexivity.
Defined.

(** X13.  When the chunk's text does not occur verbatim in the context,
    the score is at most 0.9; it is 0.9 when the chunk has a word and
    all its words occur in the context, and 0 when none does. *)
Theorem reconstruction_word_overlap (paom_context : string)
    (c : InteractionChunk) :
  Py.contains (chunk_text_of c) paom_context = false ->
  (reconstruction_against paom_context c <= 9 # 10)%Q /\
  (word_set (chunk_text_of c) <> ∅ ->
   word_set (chunk_text_of c) ⊆ word_set paom_context ->
   (reconstruction_against paom_context c == 9 # 10)%Q) /\
  (word_set (chunk_text_of c) ∩ word_set paom_context = ∅ ->
   (reconstruction_against paom_context c == 0)%Q).
Proof.
  intros Hc. rewrite reconstruction_partial by exact Hc.
  set (cw := word_set (chunk_text_of c)).
  set (xw := word_set paom_context).
  assert (Hsub : (size (cw ∩ xw) <= size cw)%nat)
    by (apply subseteq_size, intersection_subseteq_l).
  split; [|split].
  - apply (overlap_ratio_range (Z.of_nat (size (cw ∩ xw)))
             (Z.of_nat (Nat.max (size cw) 1))); lia.
  - intros Hne Hall.
    rewrite (subseteq_intersection_1_L cw xw Hall).
    assert (Hsize : size cw <> 0%nat)
      by (intros E; apply Hne; apply leibniz_equiv; now apply size_empty_iff).
    replace (Nat.max (size cw) 1) with (size cw) by lia.
    assert (Hnz : ~ (inject_Z (Z.of_nat (size cw)) == 0)%Q).
    { unfold Qeq, inject_Z. simpl. lia. }
    field. exact Hnz.
  - intros ->. rewrite size_empty. reflexivity.
Qed.

Lemma reconstruction_word_overlap_witness :
  (reconstruction_against "No observations yet."
     (mkInteractionChunk "t_chunk_0" 0 1 [user_says "No yet. foo bar"]
        "question" 1 sample_time) <= 9 # 10)%Q.
Proof.
  apply reconstruction_word_overlap. reflexivity.
Defined.

(** ** Bounds on the scores *)

(** A sum of values weighted by positive importances lies between the
    bounds of the values, times the sum of the importances. *)
Lemma weighted_sum_bounds (f : InteractionChunk -> Q) (lo hi : Q)
    (cs : list InteractionChunk) :
  Forall (fun c => (0 < importance c /\ lo <= f c /\ f c <= hi)%Q) cs ->
  (lo * Qsum (map importance cs)
   <= Qsum (map (fun c => importance c * f c) cs) /\
   Qsum (map (fun c => importance c * f c) cs)
   <= hi * Qsum (map importance cs))%Q.
Proof.
  induction 1 as [|c cs (Hw & Hlo & Hhi) _ [IH1 IH2]]; cbn [map Qsum fold_right].
  - split; nra.
  - fold (Qsum (map importance cs)).
    fold (Qsum (map (fun c0 => (importance c0 * f c0)%Q) cs)).
    split; nra.
Qed.

(** The aggregate of a non-empty set of chunks of positive importance is
    100 times the importance-weighted mean of the reconstruction
    qualities. *)
Lemma overall_score_weighted_mean (self : IPAEvaluator) (thread_id : string)
    (chunks : list InteractionChunk) :
  chunks <> [] -> Forall (fun c => (0 < importance c)%Q) chunks ->
  (0 < Qsum (map importance chunks))%Q /\
  (_calculate_overall_score
     (map (fun c => _evaluate_chunk self c thread_id) chunks) chunks
   == Qsum (map (fun c => importance c
                          * _measure_reconstruction_quality self c thread_id)
                chunks)
      / Qsum (map importance chunks) * 100)%Q.
Proof.
  intros Hne Hpos.
  assert (HS : (0 < Qsum (map importance chunks))%Q).
  { apply Qsum_positive; [destruct chunks; [congruence | discriminate]|].
    apply List.Forall_map. exact Hpos. }
  split; [exact HS|].
  unfold _calculate_overall_score.
  destruct chunks as [|c cs]; [congruence|].
  change (map (fun c0 => _evaluate_chunk self c0 thread_id) (c :: cs))
    with (_evaluate_chunk self c thread_id
          :: map (fun c0 => _evaluate_chunk self c0 thread_id) cs).
  cbv iota.
  change (_evaluate_chunk self c thread_id
          :: map (fun c0 => _evaluate_chunk self c0 thread_id) cs)
    with (map (fun c0 => _evaluate_chunk self c0 thread_id) (c :: cs)).
  rewrite map_map.
  change (fun x => credit_assigned (_evaluate_chunk self x thread_id))
    with (fun x => (importance x
                    * _measure_reconstruction_quality self x thread_id)%Q).
  destruct (Qlt_le_dec 0 (py_sum (map importance (c :: cs)))) as [_|Hle].
  - rewrite !py_sum_Qsum. reflexivity.
  - rewrite py_sum_Qsum in Hle. exfalso. exact (Qlt_not_le _ _ HS Hle).
Qed.

Lemma weighted_mean_bounds (T S lo hi : Q) :
  (0 < S -> lo * S <= T -> T <= hi * S ->
   lo * 100 <= T / S * 100 /\ T / S * 100 <= hi * 100)%Q.
Proof.
  intros HS Hlo Hhi.
  assert (H1 : (lo <= T / S)%Q) by (apply Qle_shift_div_l; assumption).
  assert (H2 : (T / S <= hi)%Q) by (apply Qle_shift_div_r; assumption).
  split; nra.
Qed.

Lemma temporal_relevance_range (c : InteractionChunk) :
  (1 # 2 <= _measure_temporal_relevance c /\ _measure_temporal_relevance c <= 1)%Q.
Proof.
  unfold _measure_temporal_relevance.
  repeat (destruct (String.eqb (semantic_type c) _)); split; discriminate.
Qed.

Section EvaluationBounds.

Variable self : IPAEvaluator.
Variable now : nat -> datetime.
Variable msgs : list message.
Variable thread_id : string.

Hypothesis max_positive : 1 <= max_chunk_size (chunker self).

(** What [evaluate_thread] returns, in terms of the chunks. *)
Lemma evaluate_thread_returns :
  exists chunks,
    chunk (chunker self) msgs now thread_id = Ok chunks /\
    evaluate_thread self now msgs thread_id
    = Ok (map (fun c => _evaluate_chunk self c thread_id) chunks,
          _calculate_overall_score
            (map (fun c => _evaluate_chunk self c thread_id) chunks) chunks) /\
    Forall (fun c => (1 # 2 < importance c /\ importance c <= 1)%Q) chunks /\
    (msgs <> [] -> chunks <> []).
Proof.
  destruct (chunk_structure (chunker self) msgs now thread_id max_positive)
    as (chunks & Hrun & _ & _ & Hwf & Hcat).
  exists chunks. split; [exact Hrun|]. split; [|split].
  - unfold evaluate_thread. rewrite Hrun. reflexivity.
  - eapply Forall_impl; [exact Hwf|].
    intros c (Hs & _ & _ & _ & E). rewrite E. apply importance_at_range. exact Hs.
  - intros Hne ->. apply Hne. symmetry. exact Hcat.
Qed.

(** X14.  With a memory attached, every result of [evaluate_thread] has
    a reconstruction quality in [[0, 1]], a credit between 0 and that
    quality, and an overall score in [[0.15, 1]]; the aggregate lies in
    [[0, 100]]. *)
Theorem evaluation_bounds_with_memory (om : ObservationalMemory) :
  paom self = Some om ->
  exists results score,
    evaluate_thread self now msgs thread_id = Ok (results, score) /\
    (0 <= score /\ score <= 100)%Q /\
    Forall (fun r =>
              (0 <= reconstruction_quality r /\ reconstruction_quality r <= 1 /\
               0 <= credit_assigned r /\
               credit_assigned r <= reconstruction_quality r /\
               3 # 20 <= overall_score r /\ overall_score r <= 1)%Q) results.
Proof.
  intros Hom.
  destruct evaluate_thread_returns as (chunks & _ & Hrun & Himp & _).
  do 2 eexists. split; [exact Hrun|].
  assert (Hrq : forall c,
             (0 <= _measure_reconstruction_quality self c thread_id /\
              _measure_reconstruction_quality self c thread_id <= 1)%Q).
  { intros c. unfold _measure_reconstruction_quality. rewrite Hom.
    apply reconstruction_range. }
  split.
  - destruct chunks as [|c0 cs0] eqn:Echunks; [split; discriminate|].
    rewrite <- Echunks in *.
    assert (Hne : chunks <> []) by (rewrite Echunks; discriminate).
    destruct (overall_score_weighted_mean self thread_id chunks Hne)
      as [HS ->].
    { eapply Forall_impl; [exact Himp|]. intros c [H _].
      eapply Qlt_trans; [|exact H]. reflexivity. }
    destruct (weighted_sum_bounds
                (fun c => _measure_reconstruction_quality self c thread_id)
                0 1 chunks) as [Hlo Hhi].
    { eapply Forall_impl; [exact Himp|]. intros c [H _].
      destruct (Hrq c) as [H0 H1]. repeat split; [|exact H0|exact H1].
      eapply Qlt_trans; [|exact H]. reflexivity. }
    destruct (weighted_mean_bounds _ _ 0 1 HS Hlo Hhi) as [H0 H1].
    split; [exact H0 | exact H1].
  - apply List.Forall_map. eapply Forall_impl; [exact Himp|].
    intros c [Hi0 Hi1]. destruct (Hrq c) as [H0 H1].
    destruct (temporal_relevance_range c) as [Ht0 Ht1].
    unfold _evaluate_chunk; cbn.
    repeat split; try assumption; nra.
Qed.

(** X15.  Without a memory the reconstruction quality is the stand-in
    [0.85 + 0.1 * importance]: every result of [evaluate_thread] has a
    quality between 0.9 and 0.95, and for a non-empty conversation the
    aggregate lies between 90 and 95, whatever the messages say. *)
Theorem evaluation_bounds_without_memory :
  paom self = None -> msgs <> [] ->
  exists results score,
    evaluate_thread self now msgs thread_id = Ok (results, score) /\
    results <> [] /\
    (90 <= score /\ score <= 95)%Q /\
    Forall (fun r =>
              (9 # 10 < reconstruction_quality r /\
               reconstruction_quality r <= 95 # 100)%Q) results.
Proof.
  intros Hnone Hmsgs.
  destruct evaluate_thread_returns as (chunks & _ & Hrun & Himp & Hne).
  specialize (Hne Hmsgs).
  do 2 eexists. split; [exact Hrun|].
  assert (Hrq : forall c,
             (1 # 2 < importance c /\ importance c <= 1)%Q ->
             (9 # 10 < _measure_reconstruction_quality self c thread_id /\
              _measure_reconstruction_quality self c thread_id <= 95 # 100)%Q).
  { intros c [H0 H1]. unfold _measure_reconstruction_quality. rewrite Hnone.
    split; nra. }
  split; [|split].
  - destruct chunks; [congruence | discriminate].
  - destruct (overall_score_weighted_mean self thread_id chunks Hne)
      as [HS ->].
    { eapply Forall_impl; [exact Himp|]. intros c [H _].
      eapply Qlt_trans; [|exact H]. reflexivity. }
    destruct (weighted_sum_bounds
                (fun c => _measure_reconstruction_quality self c thread_id)
                (9 # 10) (95 # 100) chunks) as [Hlo Hhi].
    { eapply Forall_impl; [exact Himp|]. intros c Hc.
      destruct (Hrq c Hc) as [H0 H1]. destruct Hc as [Hc _].
      repeat split; [|apply Qlt_le_weak; exact H0|exact H1].
      eapply Qlt_trans; [|exact Hc]. reflexivity. }
    destruct (weighted_mean_bounds _ _ (9 # 10) (95 # 100) HS Hlo Hhi)
      as [H0 H1].
    split; [eapply Qle_trans; [|exact H0] | eapply Qle_trans; [exact H1|]];
      discriminate.
  - apply List.Forall_map. eapply Forall_impl; [exact Himp|].
    intros c Hc. unfold _evaluate_chunk; cbn. exact (Hrq c Hc).
Qed.

End EvaluationBounds.

Lemma evaluation_bounds_with_memory_witness :
  exists results score,
    evaluate_thread (mkIPAEvaluator default_chunker (Some sample_memory))
      sample_clock [user_says "No observations"; user_says "yet."] "t"
    = Ok (results, score) /\
    (0 <= score /\ score <= 100)%Q.
Proof.
  destruct (evaluation_bounds_with_memory
              (mkIPAEvaluator default_chunker (Some sample_memory))
              sample_clock [user_says "No observations"; user_says "yet."] "t"
              ltac:(simpl; lia) sample_memory eq_refl)
    as (results & score & Hrun & Hscore & _).
  exists results, score. split; [exact Hrun | exact Hscore].
Defined.

Lemma evaluation_bounds_without_memory_witness :
  exists results score,
    evaluate_thread default_evaluator sample_clock
      [user_says "can you help"; user_says "write a parser"] "t"
    = Ok (results, score) /\
    (90 <= score /\ score <= 95)%Q.
Proof.
  destruct (evaluation_bounds_without_memory default_evaluator sample_clock
              [user_says "can you help"; user_says "write a parser"] "t"
              ltac:(simpl; lia) eq_refl ltac:(discriminate))
    as (results & score & Hrun & _ & Hscore & _).
  exists results, score. split; [exact Hrun | exact Hscore].
Defined.

(** ** More on the observer's fallback *)

Lemma extraction_loop_shape (now : nat -> datetime) (msgs : list message) :
  forall (k : nat) (acc : list Observation),
    exists new,
      extraction_loop now k msgs acc = acc ++ new /\
      (length new <= length (List.filter role_is_user msgs))%nat /\
      Forall (fun o => exists t, o = family_observation t \/ o = work_observation t)
             new.
Proof.
  induction msgs as [|msg msgs IH]; intros k acc.
  - exists []. simpl. rewrite app_nil_r. repeat split; [lia | constructor].
  - cbn [extraction_loop List.filter].
    destruct (role_is_user msg).
    + destruct (_ || _).
      * destruct (IH (S k) (acc ++ [new_observation
                                     (default (now k) (msg_timestamp msg)) RED
                                     "User mentioned family (children)"]))
          as (new & -> & Hlen & Hall).
        eexists (_ :: new). rewrite <- app_assoc. split; [reflexivity|].
        split; [simpl; lia|]. constructor; [|exact Hall].
        eexists. left. reflexivity.
      * destruct (_ || _).
        -- destruct (IH (S k) (acc ++ [new_observation
                                         (default (now k) (msg_timestamp msg))
                                         YELLOW "User discussed work situation"]))
             as (new & -> & Hlen & Hall).
           eexists (_ :: new). rewrite <- app_assoc. split; [reflexivity|].
           split; [simpl; lia|]. constructor; [|exact Hall].
           eexists. right. reflexivity.
        -- destruct (IH (S k) acc) as (new & -> & Hlen & Hall).
           exists new. split; [reflexivity|]. split; [simpl; lia | exact Hall].
    + destruct (IH (S k) acc) as (new & -> & Hlen & Hall).
      exists new. split; [reflexivity|]. split; [lia | exact Hall].
Qed.

(** X16.  The fallback extraction yields at most one observation per
    user message; each is the RED family observation or the YELLOW work
    observation, never GREEN and never with a referenced timestamp.  A
    user message whose lower-cased content names a family keyword yields
    the family observation also when it names a work keyword, and it is
    anchored at the clock reading when the message has no timestamp. *)
Theorem simple_extraction_bounds (now : nat -> datetime) (msgs : list message) :
  (length (_simple_extraction now msgs)
   <= length (List.filter role_is_user msgs))%nat /\
  Forall (fun o =>
            priority o <> GREEN /\ obs_referenced o = None /\
            exists t, o = family_observation t \/ o = work_observation t)
         (_simple_extraction now msgs) /\
  forall (k : nat) (msg : message) (text : string),
    msg_role msg = Some "user" -> msg_content msg = Some text ->
    mentions_family text = true ->
    contribution now k msg
    = [family_observation (default (now k) (msg_timestamp msg))].
Proof.
  destruct (extraction_loop_shape now msgs 0 []) as (new & Hrun & Hlen & Hall).
  unfold _simple_extraction. rewrite Hrun. cbn [app].
  split; [exact Hlen|]. split.
  - eapply Forall_impl; [exact Hall|].
    intros o (t & [-> | ->]); (split; [discriminate|]); (split; [reflexivity|]);
      exists t; auto.
  - intros k msg text Hrole Hcontent Hfam.
    unfold contribution. cbn [extraction_loop]. unfold role_is_user.
    rewrite Hrole, Hcontent. cbn [from_option id].
    change (String.eqb "user" "user") with true. cbv iota.
    unfold mentions_family in Hfam. rewrite Hfam. reflexivity.
Qed.

Lemma simple_extraction_bounds_witness :
  contribution sample_clock 4
    (mkMessage (Some "user") (Some "Work is busy and the KIDS are home") None)
  = [family_observation sample_time].
Proof.
  destruct (simple_extraction_bounds sample_clock []) as (_ & _ & H).
  exact (H 4%nat
           (mkMessage (Some "user") (Some "Work is busy and the KIDS are home")
              None)
           "Work is busy and the KIDS are home" eq_refl eq_refl eq_refl).
Defined.

(** ** More on the reflector's fallback *)

Lemma filter_all {A : Type} (f : A -> bool) (l : list A) :
  Forall (fun x => f x = true) l -> List.filter f l = l.
Proof.
  induction 1 as [|x l Hx _ IH]; [reflexivity|].
  simpl. now rewrite Hx, IH.
Qed.

(** What the fallback returns, with the summary written out. *)
Lemma reflect_result (obss : list Observation) :
  reflect obss =
  Ok match red_and_yellow obss, obss with
     | [], _ | _, [] => red_and_yellow obss
     | _ :: _, first :: _ =>
         red_and_yellow obss
         ++ [new_observation (obs_timestamp first) RED
               (summary_text (length (red_and_yellow obss)))]
     end.
Proof.
  unfold reflect, _simple_condensation. rewrite condensed_red_and_yellow.
  destruct (red_and_yellow obss) as [|k kept] eqn:E; [reflexivity|].
  destruct obss as [|first rest]; [discriminate E | reflexivity].
Qed.

Lemma red_and_yellow_no_green (obss : list Observation) :
  Forall (fun o => priority o <> GREEN) (red_and_yellow obss).
Proof.
  apply List.Forall_forall. intros o Ho.
  apply List.filter_In in Ho as [_ Ho]. destruct (priority o); congruence.
Qed.

(** X17.  When the fallback keeps at least one observation, the summary
    it appends is anchored at the timestamp of the first observation of
    the input, also when that observation is GREEN and is dropped, and it
    has no referenced timestamp. *)
Theorem reflect_summary_anchor (first : Observation) (rest : list Observation) :
  red_and_yellow (first :: rest) <> [] ->
  reflect (first :: rest)
  = Ok (red_and_yellow (first :: rest)
        ++ [mkObservation (obs_timestamp first) None RED
              (summary_text (length (red_and_yellow (first :: rest))))]).
Proof.
  intros Hne. rewrite reflect_result.
  destruct (red_and_yellow (first :: rest)); [congruence | reflexivity].
Qed.

Lemma reflect_summary_anchor_witness :
  reflect [new_observation sample_time GREEN "said hello";
           new_observation (mkDatetime 2026 3 1 8 0 0) RED "prefers tea"]
  = Ok [new_observation (mkDatetime 2026 3 1 8 0 0) RED "prefers tea";
        mkObservation sample_time None RED
          "Memory consolidated: 1 key observations preserved"].
Proof.
  apply (reflect_summary_anchor
           (new_observation sample_time GREEN "said hello")
           [new_observation (mkDatetime 2026 3 1 8 0 0) RED "prefers tea"]).
  discriminate.
Defined.

(** X18.  The fallback is not idempotent: a list without GREEN
    observations comes back one longer, with a summary appended, so
    reflecting the fallback's own non-empty output appends a second
    summary. *)
Theorem reflect_again_appends (obss out : list Observation) :
  reflect obss = Ok out -> out <> [] ->
  exists first summary,
    hd_error out = Some first /\
    reflect out = Ok (out ++ [summary]) /\
    summary = mkObservation (obs_timestamp first) None RED
                (summary_text (length out)) /\
    length out = S (length (red_and_yellow obss)).
Proof.
  intros Hrun Hne. rewrite reflect_result in Hrun. injection Hrun as Hout.
  assert (Hclean : Forall (fun o => priority o <> GREEN) out).
  { subst out. destruct (red_and_yellow obss) as [|k kept] eqn:E.
    - constructor.
    - destruct obss as [|first rest]; [discriminate E|].
      apply Forall_app. split; [|constructor; [discriminate | constructor]].
      rewrite <- E. apply red_and_yellow_no_green. }
  assert (Hkeep : red_and_yellow out = out).
  { apply filter_all. eapply Forall_impl; [exact Hclean|].
    intros o Ho. simpl in Ho. destruct (priority o); congruence. }
  destruct out as [|first rest] eqn:Eout; [congruence|].
  exists first. eexists. split; [reflexivity|].
  rewrite reflect_result, Hkeep. split; [reflexivity|]. split; [reflexivity|].
  destruct (red_and_yellow obss) as [|k kept] eqn:E; [discriminate Hout|].
  destruct obss as [|o obss']; [discriminate E|].
  rewrite <- Hout, length_app. simpl. lia.
Qed.

Lemma reflect_again_appends_witness :
  exists first summary,
    hd_error [new_observation sample_time RED "prefers tea";
              new_observation sample_time RED (summary_text 1)] = Some first /\
    reflect [new_observation sample_time RED "prefers tea";
             new_observation sample_time RED (summary_text 1)]
    = Ok ([new_observation sample_time RED "prefers tea";
           new_observation sample_time RED (summary_text 1)] ++ [summary]).
Proof.
  destruct (reflect_again_appends
              [new_observation sample_time RED "prefers tea"]
              [new_observation sample_time RED "prefers tea";
               new_observation sample_time RED (summary_text 1)])
    as (first & summary & Hhd & Hrun & _).
  - reflexivity.
  - discriminate.
  - exists first, summary. split; [exact Hhd | exact Hrun].
Defined.

(** ** What [process_messages] returns *)

(** X20.  [process_messages] never fails and leaves the controller as it
    was.  The record it returns has no current task and no suggested
    response; its observations are never GREEN and number at most one
    per user message of the call plus one summary.  The result depends
    neither on the thread id nor on the [existing_observations]
    argument. *)
Theorem process_messages_result (count_observations : list Observation -> Z)
    (now : nat -> datetime) (self : ObservationalMemory) (thread_id : string)
    (msgs : list message) (existing : string) :
  exists out,
    process_messages count_observations now self thread_id msgs existing
    = Ok (mkObservationalMemoryRecord out None None, self) /\
    Forall (fun o => priority o <> GREEN) out /\
    (length out <= S (length (List.filter role_is_user msgs)))%nat /\
    forall (other_thread other_existing : string),
      process_messages count_observations now self other_thread msgs
        other_existing
      = process_messages count_observations now self thread_id msgs existing.
Proof.
  destruct (process_messages_fresh count_observations now self thread_id msgs
              existing) as (out & Hrun & Hsame & Hrefl).
  exists out. split; [exact Hrun|].
  destruct (extraction_loop_shape now msgs 0 []) as (new & Hnew & Hlen & Hall).
  change (extraction_loop now 0 msgs []) with (_simple_extraction now msgs) in Hnew.
  cbn [app] in Hnew.
  assert (Hclean : Forall (fun o => priority o <> GREEN)
                          (_simple_extraction now msgs)).
  { rewrite Hnew. eapply Forall_impl; [exact Hall|].
    intros o (t & [-> | ->]); discriminate. }
  assert (Hout : Forall (fun o => priority o <> GREEN) out /\
                 (length out <= S (length (_simple_extraction now msgs)))%nat).
  { destruct (Z.le_gt_cases
                (count_observations (_simple_extraction now msgs))
                (reflection_threshold (config self))) as [Hle|Hgt].
    - rewrite (Hsame Hle). split; [exact Hclean | lia].
    - specialize (Hrefl ltac:(lia)). rewrite reflect_result in Hrefl.
      injection Hrefl as <-.
      pose proof (red_and_yellow_no_green (_simple_extraction now msgs)) as Hry.
      pose proof (List.filter_length_le
                    (fun o => match priority o with GREEN => false | _ => true end)
                    (_simple_extraction now msgs)) as Hfl.
      fold (red_and_yellow (_simple_extraction now msgs)) in Hfl.
      destruct (red_and_yellow (_simple_extraction now msgs)) as [|k kept];
        [split; [constructor | simpl; lia]|].
      destruct (_simple_extraction now msgs) as [|first rest];
        [split; [exact Hry | simpl in *; lia]|].
      split.
      + apply Forall_app. split; [exact Hry|].
        constructor; [discriminate | constructor].
      + rewrite length_app. simpl in *. lia. }
  destruct Hout as [H1 H2]. split; [exact H1|]. split.
  - rewrite Hnew in H2. lia.
  - intros other_thread other_existing. reflexivity.
Qed.

(** ** The rendered context *)

Lemma map_fst_fmap {A B : Type} (l : list (A * B)) : map fst l = l.*1.
Proof. induction l as [|x l IH]; [reflexivity | simpl; now rewrite IH]. Qed.

Lemma leb_total_relation :
  Total (fun a b : string => Is_true (String.leb a b)).
Proof.
  intros a b. destruct (String.leb_total a b) as [H|H]; rewrite H; simpl; auto.
Qed.

Lemma group_by_date_fold (obss : list Observation) :
  group_by_date obss = fold_left group_step obss ∅.
Proof. reflexivity. Qed.

(** The group of a date after the loop: what it held before, then the
    observations of that date in list order. *)
Lemma group_fold_lookup (obss : list Observation) :
  forall (grouped : gmap string (list Observation)) (date_key : string),
    default [] (fold_left group_step obss grouped !! date_key)
    = default [] (grouped !! date_key) ++ on_date date_key obss.
Proof.
  induction obss as [|obs obss IH]; intros grouped date_key.
  - simpl. now rewrite app_nil_r.
  - cbn [fold_left]. rewrite IH. unfold group_step.
    unfold on_date. cbn [List.filter].
    destruct (String.eqb_spec (date_key_of obs) date_key) as [E|Hne].
    + rewrite E, lookup_insert_eq. cbn [from_option id].
      rewrite <- app_assoc. reflexivity.
    + rewrite lookup_insert_ne by exact Hne. reflexivity.
Qed.

(** The dates that have a group after the loop: those that had one, and
    those of the observations. *)
Lemma group_fold_keys (obss : list Observation) :
  forall (grouped : gmap string (list Observation)) (date_key : string),
    is_Some (fold_left group_step obss grouped !! date_key) <->
    is_Some (grouped !! date_key) \/
    exists obs, In obs obss /\ date_key_of obs = date_key.
Proof.
  induction obss as [|obs obss IH]; intros grouped date_key.
  - simpl. split; [auto | intros [H|(o & [] & _)]; exact H].
  - cbn [fold_left]. rewrite IH. unfold group_step.
    destruct (String.eqb_spec (date_key_of obs) date_key) as [E|Hne].
    + rewrite E, lookup_insert_eq. split.
      * intros _. right. exists obs. split; [left; reflexivity | exact E].
      * intros _. left. eexists. reflexivity.
    + rewrite lookup_insert_ne by exact Hne. split.
      * intros [H|(o & Ho & Hd)]; [left; exact H|].
        right. exists o. split; [right; exact Ho | exact Hd].
      * intros [H|(o & [->|Ho] & Hd)]; [left; exact H | congruence |].
        right. exists o. split; [exact Ho | exact Hd].
Qed.

(** X19.  The rendering of a non-empty observation list is, joined by
    line feeds, one block per date that occurs among the observations: a
    heading [Date: <date>] followed by the lines of the observations of
    that date in input order.  The dates of the blocks are in ascending
    order without repetition.  The empty list renders as the empty
    text. *)
Theorem format_observations_blocks (obss : list Observation) :
  _format_observations [] = "" /\
  (obss <> [] ->
   let dates := sorted_keys (group_by_date obss) in
   _format_observations obss = Py.join nl (flat_map (date_block obss) dates) /\
   Sorted (fun a b => Is_true (String.leb a b)) dates /\
   NoDup dates /\
   forall date_key,
     In date_key dates <->
     exists obs, In obs obss /\ date_key_of obs = date_key).
Proof.
  split; [reflexivity|]. intros Hne. cbv zeta.
  split; [|split; [|split]].
  - unfold _format_observations. destruct obss as [|o obss']; [congruence|].
    f_equal. apply flat_map_ext. intros date_key. unfold date_block.
    rewrite group_by_date_fold, group_fold_lookup, lookup_empty. reflexivity.
  - unfold sorted_keys.
    apply (@Sorted_merge_sort _ _ _ leb_total_relation).
  - unfold sorted_keys.
    rewrite merge_sort_Permutation, map_fst_fmap.
    apply NoDup_fst_map_to_list.
  - intros date_key. unfold sorted_keys.
    rewrite <- list_elem_of_In, merge_sort_Permutation, list_elem_of_In.
    rewrite in_map_iff. split.
    + intros ([d x] & <- & Hin). apply list_elem_of_In in Hin.
      apply elem_of_map_to_list in Hin. cbn [fst].
      assert (Hsome : is_Some (group_by_date obss !! d)) by (eexists; exact Hin).
      rewrite group_by_date_fold in Hsome.
      apply group_fold_keys in Hsome as [H|H]; [|exact H].
      rewrite lookup_empty in H. destruct H as [? H]. discriminate H.
    + intros Hobs.
      assert (Hsome : is_Some (group_by_date obss !! date_key)).
      { rewrite group_by_date_fold. apply group_fold_keys. right. exact Hobs. }
      destruct Hsome as [x Hx]. exists (date_key, x). split; [reflexivity|].
      apply list_elem_of_In, elem_of_map_to_list. exact Hx.
Qed.

Lemma format_observations_blocks_witness :
  _format_observations
    [new_observation sample_time RED "prefers tea";
     new_observation (mkDatetime 2025 12 31 23 59 0) GREEN "said hello";
     new_observation sample_time YELLOW "uses the staging server"]
  = Py.join nl
      (date_block
         [new_observation sample_time RED "prefers tea";
          new_observation (mkDatetime 2025 12 31 23 59 0) GREEN "said hello";
          new_observation sample_time YELLOW "uses the staging server"]
         "2025-12-31"
       ++ date_block
            [new_observation sample_time RED "prefers tea";
             new_observation (mkDatetime 2025 12 31 23 59 0) GREEN "said hello";
             new_observation sample_time YELLOW "uses the staging server"]
            "2026-02-14").
Proof.
  destruct (format_observations_blocks
              [new_observation sample_time RED "prefers tea";
               new_observation (mkDatetime 2025 12 31 23 59 0) GREEN "said hello";
               new_observation sample_time YELLOW "uses the staging server"])
    as (_ & H).
  destruct (H ltac:(discriminate)) as (Hrender & _).
  rewrite Hrender. vm_compute. reflexivity.
Defined.

(** ** A chunker that makes no progress *)

(** X21.  With a maximum size of zero or less the loop of [chunk] never
    ends on a non-empty conversation: every chunk size is at most 0, so
    the index never reaches the end, whatever number of iterations is
    allowed. *)
Theorem chunk_never_returns_without_progress (self : InteractionChunker)
    (msgs : list message) (now : nat -> datetime) (thread_id : string) :
  max_chunk_size self <= 0 -> msgs <> [] ->
  forall fuel : nat,
    chunk_loop self msgs now thread_id fuel 0 [] = Err OutOfFuel.
Proof.
  intros Hmax Hne.
  assert (Hlen : 0 < Z.of_nat (length msgs)).
  { assert (length msgs <> 0%nat)
      by (intros E; apply Hne; now apply List.length_zero_iff_nil).
    lia. }
  assert (Hgen : forall fuel i acc,
             i < Z.of_nat (length msgs) ->
             chunk_loop self msgs now thread_id fuel i acc = Err OutOfFuel).
  { induction fuel as [|fuel IH]; intros i acc Hi.
    - simpl. destruct (Z.ltb_spec i (Z.of_nat (length msgs))); [reflexivity | lia].
    - cbn [chunk_loop].
      destruct (Z.ltb_spec i (Z.of_nat (length msgs))) as [_|]; [|lia].
      unfold _calculate_importance.
      destruct (Z.eqb_spec (Z.of_nat (length msgs)) 0) as [|_]; [lia|].
      cbn [bind]. apply IH.
      destruct (determine_chunk_size_cases self msgs i) as [E|[_ H]];
        [rewrite E|]; unfold candidate_size in *; lia. }
  intros fuel. apply Hgen. exact Hlen.
Qed.

Lemma chunk_never_returns_without_progress_witness :
  chunk (mkInteractionChunker 0 0 default_semantic_patterns)
    [user_says "hello"] sample_clock "t" = Err OutOfFuel.
Proof.
  apply (chunk_never_returns_without_progress
           (mkInteractionChunker 0 0 default_semantic_patterns)
           [user_says "hello"] sample_clock "t").
  - simpl. lia.
  - discriminate.
Defined.
